(** * logmanager: logging configuration builder and request-logging middleware

    A shallow embedding of [logmanager/manager.py] and
    [logmanager/middleware/middleware.py].

    Python [str] values are [string]s; every character stands for the code
    point of the same number.  Python objects that the code shares and
    mutates (the dicts behind [LogManager]) live in an explicit heap. *)

From Stdlib Require Import ZArith Ascii String List.
From stdpp Require Import base option list strings pretty gmap.

Local Open Scope string_scope.

(** ** Python string primitives used by the sources *)

Module PyStr.


(** [str.isspace] on one character: the code points Python treats as
    white space (below 256). *)
Definition isspace (c : ascii) : bool :=
  let n := nat_of_ascii c in
  (((9 <=? n) && (n <=? 13)) || ((28 <=? n) && (n <=? 32))
   || (n =? 133) || (n =? 160))%nat.

Fixpoint lstrip (s : string) : string :=
  match s with
  | EmptyString => EmptyString
  | String c s' => if isspace c then lstrip s' else s
  end.

Fixpoint rstrip (s : string) : string :=
  match s with
  | EmptyString => EmptyString
  | String c s' =>
      match rstrip s' with
      | EmptyString => if isspace c then EmptyString else String c EmptyString
      | r => String c r
      end
  end.

(** [s.strip()] *)
Definition strip (s : string) : string := rstrip (lstrip s).

(** [s.split(sep)] for a one-character separator. *)
Fixpoint split (sep : ascii) (s : string) : list string :=
  match s with
  | EmptyString => [EmptyString]
  | String c s' =>
      if Ascii.eqb c sep then EmptyString :: split sep s'
      else match split sep s' with
           | x :: xs => String c x :: xs
           | [] => [String c EmptyString]
           end
  end.

(** [sep.join(xs)] *)
Fixpoint join (sep : string) (xs : list string) : string :=
  match xs with
  | [] => EmptyString
  | [x] => x
  | x :: xs' => x ++ sep ++ join sep xs'
  end.

(** Truth value of a [str]. *)
Definition truthy (s : string) : bool :=
  match s with EmptyString => false | _ => true end.

(** The double-quote character, code point 34. *)
Definition dquote : string := String (ascii_of_nat 34) EmptyString.

(** The part of [s] in front of its first [sep] (all of [s] when it has
    none): the words the specification uses for [split(sep)[0]]. *)
Fixpoint before_first (sep : ascii) (s : string) : string :=
  match s with
  | EmptyString => EmptyString
  | String c s' =>
      if Ascii.eqb c sep then EmptyString else String c (before_first sep s')
  end.


End PyStr.

(** ** logmanager/middleware/middleware.py *)

Module Middleware.

Import PyStr.

(** The identifier of a user object: [None], an [int] or a [str]. *)
Inductive pyid :=
| IdNone
| IdInt (z : Z)
| IdStr (s : string).

Record User := { id : pyid }.

(** An attribute of an object: [Missing] when the object has no such
    attribute (reading it raises [AttributeError]), else its value. *)
Inductive attribute (A : Type) : Type :=
| Missing
| Attr (value : A).
Arguments Missing {A}.
Arguments Attr {A}.

(** A request: the [META] dict (WSGI environ, strings to strings) and the
    [user] attribute: missing (a request that no authentication middleware
    has handled), [None] or a user object. *)
Record Request := {
  META : gmap string string;
  user : attribute (option User);
}.

Record Response := { status_code : Z }.

Definition NO_VALUE_MARKER : string := "-".

Definition comma : ascii := ascii_of_nat 44.

(** [x_forwarded_for.split(',')[0]]; [split] never returns an empty list
    (lemma [split_cons]), so the index is always in range. *)
Definition first_field (s : string) : string :=
  match split comma s with
  | x :: _ => x
  | [] => EmptyString
  end.

Definition get_client_ip (request : Request) (default : string) : string :=
  let x_forwarded_for :=
    match META request !! "HTTP_X_FORWARDED_FOR" with
    | Some v => if truthy v then v else ""
    | None => ""
    end in
  let ip_address :=
    if truthy (strip x_forwarded_for)
    then first_field x_forwarded_for
    else match META request !! "REMOTE_ADDR" with
         | Some v => v
         | None => default
         end in
  strip ip_address.

Definition _get_value (request : Request) (key : string) : string :=
  match META request !! key with
  | Some v => v
  | None => NO_VALUE_MARKER
  end.

Definition id_truthy (i : pyid) : bool :=
  match i with
  | IdNone => false
  | IdInt z => negb (z =? 0)%Z
  | IdStr s => truthy s
  end.

(** [str(user_id)] *)
Definition id_str (i : pyid) : string :=
  match i with
  | IdNone => "None"
  | IdInt z => pretty z
  | IdStr s => s
  end.

(** [_get_user_id]; the result [None] stands for the [AttributeError] that
    reading [request.user] raises on a request without that attribute. *)
Definition _get_user_id (request : Request) : option pyid :=
  match user request with
  | Missing => None
  | Attr u =>
      let user_id :=
        match u with
        | Some u => id u
        | None => IdNone
        end in
      Some (if id_truthy user_id then user_id else IdStr NO_VALUE_MARKER)
  end.

(** The six fields that [_log_request] joins, in source order; [None]
    when [_get_user_id] raises. *)
Definition log_fields (request : Request) (response : option Response)
  : option (list string) :=
  let client_ip := get_client_ip request NO_VALUE_MARKER in
  let remote_addr := _get_value request "REMOTE_ADDR" in
  let x_forwarded_for := _get_value request "HTTP_X_FORWARDED_FOR" in
  let user_agent := _get_value request "HTTP_USER_AGENT" in
  let method := _get_value request "REQUEST_METHOD" in
  let path := _get_value request "PATH_INFO" in
  let status_code :=
    match response with
    | Some r => status_code r
    | None => 500%Z
    end in
  user_id ← _get_user_id request;
  Some [ client_ip;
         remote_addr ++ "," ++ x_forwarded_for;
         dquote ++ method ++ " " ++ path ++ dquote;
         id_str user_id;
         pretty status_code;
         dquote ++ user_agent ++ dquote ].

(** The message [_log_request] builds; [None] when [_get_user_id] raises. *)
Definition log_line (request : Request) (response : option Response)
  : option string :=
  join " " <$> log_fields request response.

(** Exceptions: the [AttributeError] for an attribute the object lacks,
    and the exceptions [E] the inner pipeline raises. *)
Inductive exception (E : Type) : Type :=
| AttributeError (name : string)
| Raised (e : E).
Arguments AttributeError {E}.
Arguments Raised {E}.

(** Effects: the state is the list of messages handed to [logger.info] on
    the ['app.request'] logger, oldest first; a computation ends with a
    value or with a raised exception. *)
Section Effects.
Context {E : Type}.

Definition M (A : Type) : Type :=
  list string → list string * (exception E + A).

Definition logger_info (msg : string) : M unit :=
  λ log, ((log ++ [msg])%list, inr tt).

Definition raise {A} (e : exception E) : M A :=
  λ log, (log, inl e).

(** [_log_request]: the fields are computed first, so that an
    [AttributeError] of [_get_user_id] leaves before [logger.info] is
    called. *)
Definition _log_request (request : Request) (response : option Response)
  : M unit :=
  match log_line request response with
  | Some line => logger_info line
  | None => raise (AttributeError "user")
  end.

(** [__call__]: [response] starts as [None], is assigned when
    [get_response] returns, and the [finally] block runs on both exits;
    an exception raised inside the [finally] block replaces the pending
    one. *)
Definition __call__ (get_response : Request → M (option Response))
    (request : Request) : M (option Response) :=
  λ log,
    let '(log1, outcome) := get_response request log in
    let response :=
      match outcome with
      | inr r => r
      | inl _ => None
      end in
    match _log_request request response log1 with
    | (log2, inl e) => (log2, inl e)
    | (log2, inr _) =>
        match outcome with
        | inl e => (log2, inl e)
        | inr _ => (log2, inr response)
        end
    end.
End Effects.


End Middleware.

(** ** Python objects: values, insertion-ordered dicts and the heap *)

Module Heap.


Abbreviation loc := nat.

(** Values: immutable ones stand for themselves, dicts and lists are
    references into the heap. *)
Inductive val :=
| VNone
| VBool (b : bool)
| VInt (z : Z)
| VStr (s : string)
| VRef (l : loc).

(** A [dict] keeps its keys in insertion order. *)
Abbreviation dict := (list (string * val)).

Inductive obj :=
| ODict (d : dict)
| OList (xs : list val).

Abbreviation heap := (list obj).

(** [d.get(k)] *)
Fixpoint dict_get (d : dict) (k : string) : option val :=
  match d with
  | [] => None
  | (k', v) :: d' => if String.eqb k' k then Some v else dict_get d' k
  end.

(** [d[k] = v]: an existing key keeps its position, a new key goes last. *)
Fixpoint dict_set (d : dict) (k : string) (v : val) : dict :=
  match d with
  | [] => [(k, v)]
  | (k', v') :: d' =>
      if String.eqb k' k then (k', v) :: d' else (k', v') :: dict_set d' k v
  end.

(** [[*d]]: the keys of [d], in order. *)
Definition keys (d : dict) : list string := d.*1.

(** Computations on the heap. *)
Definition St (A : Type) : Type := heap → A * heap.

#[global] Instance St_ret : MRet St := λ A a h, (a, h).
#[global] Instance St_bind : MBind St :=
  λ A B f m h, let '(a, h') := m h in f a h'.

(** A dict or list display creates a new object. *)
Definition alloc (o : obj) : St loc := λ h, (length h, (h ++ [o])%list).

(** [d[k] = v] on the dict object at [l]. *)
Definition setitem (l : loc) (k : string) (v : val) : St unit :=
  λ h, match h !! l with
       | Some (ODict d) => (tt, <[l := ODict (dict_set d k v)]> h)
       | _ => (tt, h)
       end.

Definition dict_at (h : heap) (l : loc) : option dict :=
  match h !! l with
  | Some (ODict d) => Some d
  | _ => None
  end.

Definition list_at (h : heap) (l : loc) : option (list val) :=
  match h !! l with
  | Some (OList xs) => Some xs
  | _ => None
  end.

(** The keys of the dict object at [l] (none when [l] holds no dict). *)
Definition keys_at (l : loc) : St (list string) :=
  λ h, (default [] (keys <$> dict_at h l), h).


End Heap.

(** ** logmanager/manager.py *)

Module Manager.

Import PyStr Heap.

(** The functions of the [os] module that [LogManager] calls, over a file
    system state [FS]; [makedirs] can raise. *)
Record OS (FS Exn : Type) := {
  path_exists : FS → string → bool;
  makedirs : FS → string → Exn + FS;
  path_join : string → string → string;
}.
Arguments path_exists {FS Exn}.
Arguments makedirs {FS Exn}.
Arguments path_join {FS Exn}.

(** The attributes of a [LogManager]; all are assigned once, in
    [__init__], the last three to dict objects. *)
Record LogManager := {
  _app_name : string;
  _log_dir : option string;
  _log_group : option string;
  _default_log_level : option string;
  _config : loc;
  _handlers : loc;
  _loggers : loc;
}.

Definition opt_val (o : option string) : val :=
  match o with
  | Some s => VStr s
  | None => VNone
  end.

Definition opt_truthy (o : option string) : bool :=
  match o with
  | Some s => truthy s
  | None => false
  end.

Definition newline : string := String (ascii_of_nat 10) EmptyString.

(** The dict display assigned to [self._config]. *)
Definition new_config : St loc :=
  f_default ← alloc (ODict
    [("format", VStr "%(levelname)s [%(asctime)s] %(message)s")]);
  f_basic ← alloc (ODict
    [("format", VStr ("%(asctime)s %(levelname)s %(processName)s %(name)s "
                      ++ "%(message)s"))]);
  f_full ← alloc (ODict
    [("format", VStr ("%(asctime)s %(levelname)s %(processName)s %(name)s  "
                      ++ "%(filename)s:%(lineno)d %(message)s"))]);
  f_db ← alloc (ODict
    [("format", VStr ("[%(asctime)s]" ++ newline ++ "%(message)s" ++ newline))]);
  formatters ← alloc (ODict
    [("default", VRef f_default); ("basic", VRef f_basic);
     ("full", VRef f_full); ("db", VRef f_db)]);
  handlers ← alloc (ODict []);
  loggers ← alloc (ODict []);
  alloc (ODict
    [("version", VInt 1); ("disable_existing_loggers", VBool false);
     ("formatters", VRef formatters); ("handlers", VRef handlers);
     ("loggers", VRef loggers)]).

(** The dict display assigned to [self._handlers]. *)
Definition new_handlers : St loc :=
  console ← alloc (ODict
    [("class", VStr "logging.StreamHandler"); ("formatter", VStr "basic")]);
  alloc (ODict [("console", VRef console)]).

(** [_add_file_handler], on the attributes of [self] it reads;
    [__init__] calls it only when [self._log_dir] is a non-empty string. *)
Definition _add_file_handler {FS Exn} (os : OS FS Exn)
    (app_name log_dir : string) (handlers : loc) (formatter : string)
    (fs : FS) (h : heap) : Exn + (FS * heap) :=
  let created :=
    if negb (path_exists os fs log_dir) then makedirs os fs log_dir
    else inr fs in
  match created with
  | inl e => inl e
  | inr fs' =>
      let '(_, h') :=
        (file ← alloc (ODict
           [("class", VStr "logging.handlers.TimedRotatingFileHandler");
            ("formatter", VStr formatter);
            ("filename", VStr (path_join os log_dir (app_name ++ ".log")));
            ("when", VStr "midnight")]);
         setitem handlers "file" (VRef file)) h in
      inr (fs', h')
  end.

(** [_add_cloudwatch_handler], on the attributes of [self] it reads. *)
Definition _add_cloudwatch_handler (app_name : string)
    (log_group : option string) (handlers : loc) (formatter : string)
  : St unit :=
  cloudwatch ← alloc (ODict
    [("class", VStr "watchtower.CloudWatchLogHandler");
     ("formatter", VStr formatter);
     ("log_group", opt_val log_group);
     ("stream_name", VStr (app_name ++ "-{strftime:%Y-%m-%d}"));
     ("use_queues", VBool true);
     ("create_log_group", VBool false)]);
  setitem handlers "cloudwatch" (VRef cloudwatch).

Definition __init__ {FS Exn} (os : OS FS Exn)
    (app_name : string) (log_level log_group log_dir : option string)
    (fs : FS) (h : heap) : Exn + (LogManager * FS * heap) :=
  let '(config, h1) := new_config h in
  let '(handlers, h2) := new_handlers h1 in
  let with_file :=
    match log_dir with
    | Some dir =>
        if truthy dir
        then _add_file_handler os app_name dir handlers "full" fs h2
        else inr (fs, h2)
    | None => inr (fs, h2)
    end in
  match with_file with
  | inl e => inl e
  | inr (fs', h3) =>
      let h4 :=
        if opt_truthy log_group
        then (_add_cloudwatch_handler app_name log_group handlers "full" h3).2
        else h3 in
      let '(loggers, h5) := alloc (ODict []) h4 in
      inr ({| _app_name := app_name;
              _log_dir := log_dir;
              _log_group := log_group;
              _default_log_level := log_level;
              _config := config;
              _handlers := handlers;
              _loggers := loggers |}, fs', h5)
  end.

(** The [config] property: returns [self._config] itself after storing
    the handler and logger dicts in it. *)
Definition config (self : LogManager) : St val :=
  let config := _config self in
  setitem config "handlers" (VRef (_handlers self));;
  setitem config "loggers" (VRef (_loggers self));;
  mret (VRef config).

(** [level or self._default_log_level] *)
Definition level_or_default (self : LogManager) (level : option string) : val :=
  if opt_truthy level then opt_val level
  else opt_val (_default_log_level self).

Definition add_logger (self : LogManager) (logger : string)
    (level : option string) (propagate : bool) : St unit :=
  names ← keys_at (_handlers self);
  handlers ← alloc (OList (VStr <$> names));
  route ← alloc (ODict
    [("propagate", VBool propagate);
     ("handlers", VRef handlers);
     ("level", level_or_default self level)]);
  setitem (_loggers self) logger (VRef route).

(** [DefaultLogManager._add_loggers] *)
Fixpoint _add_loggers (self : LogManager) (loggers : list string) : St unit :=
  match loggers with
  | [] => mret tt
  | logger :: rest =>
      add_logger self logger None false;; _add_loggers self rest
  end.

Definition default_loggers : list string :=
  [ "django.server"; "django.request"; "django.security.*"; "django.db";
    "celery"; "celery.worker"; "celery.app"; "app" ].

(** [DefaultLogManager.__init__]; [loggers] is [None] or a list. *)
Definition DefaultLogManager__init__ {FS Exn} (os : OS FS Exn)
    (app_name : string) (log_level log_group log_dir : option string)
    (loggers : option (list string))
    (fs : FS) (h : heap) : Exn + (LogManager * FS * heap) :=
  match __init__ os app_name log_level log_group log_dir fs h with
  | inl e => inl e
  | inr (self, fs', h1) =>
      let h2 := (_add_loggers self default_loggers h1).2 in
      let h3 :=
        match loggers with
        | Some (l :: ls) => (_add_loggers self (l :: ls) h2).2
        | _ => h2
        end in
      inr (self, fs', h3)
  end.

(** Calls a client makes on a constructed manager. *)
Inductive client_call :=
| AddLogger (logger : string) (level : option string) (propagate : bool)
| GetConfig.

Definition do_call (self : LogManager) (h : heap) (c : client_call) : heap :=
  match c with
  | AddLogger logger level propagate =>
      (add_logger self logger level propagate h).2
  | GetConfig => (config self h).2
  end.

Definition after_calls (self : LogManager) (cs : list client_call) (h : heap) : heap :=
  foldl (do_call self) h cs.

(** The states a client can bring a manager to: construct it, then call
    [add_logger] and read [config] any number of times. *)
Inductive reachable : LogManager → heap → Prop :=
| reach_init {FS Exn} (os : OS FS Exn) app_name log_level log_group log_dir
    fs h0 self fs' h :
    __init__ os app_name log_level log_group log_dir fs h0 = inr (self, fs', h) →
    reachable self h
| reach_call self h c :
    reachable self h → reachable self (do_call self h c).

(** A model of a POSIX file system good enough to run the constructor:
    the set of existing paths, the paths that cannot be created, and the
    [makedirs] calls made so far. *)
Record posix_fs := {
  existing : gset string;
  forbidden : gset string;
  makedirs_calls : list string;
}.

Definition posix_join (a b : string) : string :=
  if String.prefix "/" b then b
  else if negb (truthy a) then b
  else if String.prefix "/" (String.rev a) then a ++ b
  else a ++ "/" ++ b.

Definition posix : OS posix_fs string := {|
  path_exists fs p := bool_decide (p ∈ existing fs);
  makedirs fs p :=
    if bool_decide (p ∈ forbidden fs) then inl "PermissionError"
    else inr {| existing := {[p]} ∪ existing fs;
                forbidden := forbidden fs;
                makedirs_calls := (makedirs_calls fs ++ [p])%list |};
  path_join := posix_join;
|}.


End Manager.

(** ** Reading the builder's state back from the heap *)

Module Views.

Import Heap Manager.

Definition deref_dict (h : heap) (v : val) : option dict :=
  match v with
  | VRef l => dict_at h l
  | _ => None
  end.

Definition deref_list (h : heap) (v : val) : option (list val) :=
  match v with
  | VRef l => list_at h l
  | _ => None
  end.

(** The names in the handler mapping [self._handlers], in order. *)
Definition handler_names (self : LogManager) (h : heap) : option (list string) :=
  keys <$> dict_at h (_handlers self).

(** The handler names the constructor is to create: [console], then
    [file] for a non-empty [log_dir], then [cloudwatch] for a non-empty
    [log_group]. *)
Definition expected_handlers (log_group log_dir : option string)
  : list string :=
  (["console"] ++ (if opt_truthy log_dir then ["file"] else [])
   ++ (if opt_truthy log_group then ["cloudwatch"] else []))%list.

(** The names in the route mapping [self._loggers], in order. *)
Definition logger_names (self : LogManager) (h : heap) : option (list string) :=
  keys <$> dict_at h (_loggers self).

(** A logger route: a dict with exactly the entries [propagate],
    [handlers] and [level], read with its handler list. *)
Record Route := {
  route_propagate : val;
  route_handlers : list val;
  route_level : val;
}.

Definition route_view (h : heap) (v : val) : option Route :=
  d ← deref_dict h v;
  guard (keys d = ["propagate"; "handlers"; "level"]);;
  p ← dict_get d "propagate";
  hs ← dict_get d "handlers" ≫= deref_list h;
  lv ← dict_get d "level";
  Some {| route_propagate := p; route_handlers := hs; route_level := lv |}.

(** The route registered for [logger], read through [self._loggers]. *)
Definition logger_route (self : LogManager) (h : heap) (logger : string)
  : option Route :=
  d ← dict_at h (_loggers self);
  v ← dict_get d logger;
  route_view h v.

(** The three mappings of a configuration dict. *)
Record Configuration := {
  cfg_formatters : dict;
  cfg_handlers : dict;
  cfg_loggers : dict;
}.

Definition config_view (h : heap) (c : val) : option Configuration :=
  d ← deref_dict h c;
  fs ← dict_get d "formatters" ≫= deref_dict h;
  hs ← dict_get d "handlers" ≫= deref_dict h;
  ls ← dict_get d "loggers" ≫= deref_dict h;
  Some {| cfg_formatters := fs; cfg_handlers := hs; cfg_loggers := ls |}.

(** The formatter name a handler refers to. *)
Definition handler_formatter (h : heap) (v : val) : option string :=
  d ← deref_dict h v;
  match dict_get d "formatter" with
  | Some (VStr f) => Some f
  | _ => None
  end.

(** The routes of a configuration, by logger name. *)
Definition config_route (h : heap) (c : val) (logger : string) : option Route :=
  cv ← config_view h c;
  v ← dict_get (cfg_loggers cv) logger;
  route_view h v.

(** Cross references: every handler a route lists is a key of the handler
    mapping, every formatter a handler names is a key of the formatter
    mapping. *)
Definition cross_references_hold (h : heap) (cv : Configuration) : Prop :=
  (∀ logger v, (logger, v) ∈ cfg_loggers cv →
     ∃ route, route_view h v = Some route
              ∧ ∀ x, x ∈ route_handlers route →
                  ∃ name, x = VStr name ∧ name ∈ keys (cfg_handlers cv))
  ∧ (∀ name v, (name, v) ∈ cfg_handlers cv →
       ∃ f, handler_formatter h v = Some f ∧ f ∈ keys (cfg_formatters cv)).


End Views.

(** ** The invariant of a constructed manager *)

Module Invariant.

Import PyStr Heap Manager Views.

(** Objects other than the manager's three dicts. *)
Definition private (m : LogManager) (l : loc) : Prop :=
  l ≠ _config m ∧ l ≠ _handlers m ∧ l ≠ _loggers m.

Definition handler_ok (m : LogManager) (h : heap) (v : val) : Prop :=
  ∃ x d f, v = VRef x ∧ private m x ∧ h !! x = Some (ODict d)
           ∧ dict_get d "formatter" = Some (VStr f)
           ∧ f ∈ ["default"; "basic"; "full"; "db"].

Definition route_ok (m : LogManager) (h : heap) (names : list string)
    (v : val) : Prop :=
  ∃ r hl p lv, v = VRef r ∧ private m r ∧ private m hl
    ∧ h !! r = Some (ODict [("propagate", VBool p); ("handlers", VRef hl);
                            ("level", lv)])
    ∧ h !! hl = Some (OList (VStr <$> names)).

Record wf_with (m : LogManager) (h : heap) (hd ld cd : dict)
    (fl : loc) (fd : dict) : Prop := {
  wf_config_handlers : _config m ≠ _handlers m;
  wf_config_loggers : _config m ≠ _loggers m;
  wf_handlers_loggers : _handlers m ≠ _loggers m;
  wf_handlers : h !! _handlers m = Some (ODict hd);
  wf_handlers_ok : Forall (λ kv, handler_ok m h kv.2) hd;
  wf_loggers : h !! _loggers m = Some (ODict ld);
  wf_loggers_ok : Forall (λ kv, route_ok m h (keys hd) kv.2) ld;
  wf_loggers_nodup : NoDup (keys ld);
  wf_config : h !! _config m = Some (ODict cd);
  wf_config_keys :
    keys cd = ["version"; "disable_existing_loggers"; "formatters";
               "handlers"; "loggers"];
  wf_formatters_ref : dict_get cd "formatters" = Some (VRef fl);
  wf_formatters_private : private m fl;
  wf_formatters : h !! fl = Some (ODict fd);
  wf_formatters_keys : keys fd = ["default"; "basic"; "full"; "db"];
}.

Definition wf (m : LogManager) (h : heap) : Prop :=
  ∃ hd ld cd fl fd, wf_with m h hd ld cd fl fd.

(** What the constructor does to the file system, and when it raises. *)
Definition dir_outcome {FS Exn} (os : OS FS Exn) (log_dir : option string)
    (fs : FS) : Exn + FS :=
  match log_dir with
  | Some d =>
      if truthy d
      then if path_exists os fs d then inr fs else makedirs os fs d
      else inr fs
  | None => inr fs
  end.

(** Heap changes that leave every object outside [_config] and
    [_loggers] as it is. *)
Definition frame (m : LogManager) (h h' : heap) : Prop :=
  ∀ l o, l ≠ _config m → l ≠ _loggers m → h !! l = Some o → h' !! l = Some o.

(** The effect of reading [config] on a well-formed heap. *)
Definition refreshed (m : LogManager) (cd : dict) : dict :=
  dict_set (dict_set cd "handlers" (VRef (_handlers m)))
    "loggers" (VRef (_loggers m)).

(** The dict at [r] is a route with exactly these three entries, its
    handler list being the object at [hl]. *)
Definition route_at (h : heap) (r hl : loc) (p : bool) (names : list string)
    (lv : val) : Prop :=
  h !! r = Some (ODict [("propagate", VBool p); ("handlers", VRef hl);
                        ("level", lv)])
  ∧ h !! hl = Some (OList (VStr <$> names)).

End Invariant.

(** ** Requests used as examples, and the specification's wording *)

Module RequestScenarios.

Import PyStr Middleware.

(** The fallback chain below the forwarded header. *)
Definition fallback_addr (request : Request) (default : string) : string :=
  match META request !! "REMOTE_ADDR" with
  | Some addr => addr
  | None => default
  end.

(** Client IP resolution in the specification's words: the forwarded
    header when present and non-empty after trimming, else the remote
    address, else the default, taken as they are. *)
Definition ResolveClientIP (request : Request) (default : string) : string :=
  match META request !! "HTTP_X_FORWARDED_FOR" with
  | Some h =>
      if truthy (strip h) then strip (before_first comma h)
      else fallback_addr request default
  | None => fallback_addr request default
  end.

(** The same, with the fallback value trimmed as well. *)
Definition ResolveClientIP_trimmed (request : Request) (default : string)
  : string :=
  match META request !! "HTTP_X_FORWARDED_FOR" with
  | Some h =>
      if truthy (strip h) then strip (before_first comma h)
      else strip (fallback_addr request default)
  | None => strip (fallback_addr request default)
  end.

Definition padded_remote : Request :=
  {| META := {[ "REMOTE_ADDR" := " 9.9.9.9 " ]}; user := Attr None |}.

Definition blank_first_hop : Request :=
  {| META := {[ "HTTP_X_FORWARDED_FOR" := " ,5.6.7.8";
                "REMOTE_ADDR" := "9.9.9.9" ]};
     user := Attr None |}.

(** The response the [finally] block of [__call__] sees. *)
Definition seen_response {E} (outcome : exception E + option Response)
  : option Response :=
  match outcome with
  | inr r => r
  | inl _ => None
  end.

(** An inner pipeline that logs a line of its own and then raises. *)
Definition failing_pipeline : Request → M (E := string) (option Response) :=
  λ _ log, ((log ++ ["inner"])%list, inl (Raised "boom")).

Definition health_check : Request :=
  {| META := {[ "REMOTE_ADDR" := "10.0.0.5";
                "REQUEST_METHOD" := "GET";
                "PATH_INFO" := "/health" ]};
     user := Attr None |}.

(** The same request as no authentication middleware has handled it:
    without [user] attribute. *)
Definition health_check_without_user : Request :=
  {| META := META health_check; user := Missing |}.



End RequestScenarios.

(** ** Managers used as examples *)

Module Scenarios.

Import PyStr Heap Manager Views.

Definition fresh_fs : posix_fs :=
  {| existing := ∅; forbidden := ∅; makedirs_calls := [] |}.

(** A file system on which no directory can be created. *)
Definition readonly_fs : posix_fs :=
  {| existing := ∅; forbidden := {[ "" ; "/var/log/svc" ]};
     makedirs_calls := [] |}.

(** [LogManager('svc', 'INFO', None, '/var/log/svc')] on an empty heap. *)
Definition svc : LogManager :=
  {| _app_name := "svc";
     _log_dir := Some "/var/log/svc";
     _log_group := None;
     _default_log_level := Some "INFO";
     _config := 7;
     _handlers := 9;
     _loggers := 11 |}.

Definition svc_fs : posix_fs :=
  {| existing := {[ "/var/log/svc" ]} ∪ ∅; forbidden := ∅;
     makedirs_calls := ["/var/log/svc"] |}.

Definition svc_heap : heap :=
  Eval vm_compute in
    match __init__ posix "svc" (Some "INFO") None (Some "/var/log/svc")
            fresh_fs [] with
    | inr (_, _, h) => h
    | inl _ => []
    end.

(** The handler mapping in the specification's words: [file] exactly when
    a [log_dir] argument was given, [cloudwatch] exactly when a [log_group]
    argument was given. *)
Definition handlers_as_claimed (log_group log_dir : option string)
    (names : list string) : Prop :=
  ∀ n, n ∈ names ↔
       n = "console" ∨ (n = "file" ∧ log_dir ≠ None)
       ∨ (n = "cloudwatch" ∧ log_group ≠ None).

(** The three dict locations of a manager. *)
Definition layout (m : LogManager) : loc * loc * loc :=
  (_config m, _handlers m, _loggers m).

End Scenarios.

(** ** Further observations on requests *)

Module Observations.
Import PyStr Middleware.

(** [c in s] *)
Fixpoint has_char (c : ascii) (s : string) : bool :=
  match s with
  | EmptyString => false
  | String x s' => Ascii.eqb x c || has_char c s'
  end.

(** The same request with another [user] attribute. *)
Definition with_user (request : Request) (u : attribute (option User))
  : Request :=
  {| META := META request; user := u |}.

Definition two_hops : Request :=
  {| META := {[ "HTTP_X_FORWARDED_FOR" := "1.2.3.4, 5.6.7.8";
                "REMOTE_ADDR" := "9.9.9.9" ]};
     user := Attr None |}.

Definition user_zero : Request :=
  {| META := {[ "REMOTE_ADDR" := "10.0.0.5" ]};
     user := Attr (Some {| id := IdInt 0 |}) |}.

(** The text of a log line, for a user id and a status code. *)
Definition line_text (request : Request) (user_id : pyid) (status : Z)
  : string :=
  get_client_ip request "-" ++ " "
  ++ default "-" (META request !! "REMOTE_ADDR") ++ ","
  ++ default "-" (META request !! "HTTP_X_FORWARDED_FOR") ++ " "
  ++ dquote ++ default "-" (META request !! "REQUEST_METHOD") ++ " "
  ++ default "-" (META request !! "PATH_INFO") ++ dquote ++ " "
  ++ id_str user_id ++ " "
  ++ pretty status ++ " "
  ++ dquote ++ default "-" (META request !! "HTTP_USER_AGENT") ++ dquote.

End Observations.

(** ** Further observations on managers *)

Module ManagerObservations.
Import PyStr Heap Manager Views.

(** The route names after one more call: [add_logger] puts a new name
    last and leaves a known name where it is. *)
Definition add_name (names : list string) (c : client_call) : list string :=
  match c with
  | AddLogger logger _ _ =>
      if decide (logger ∈ names) then names else (names ++ [logger])%list
  | GetConfig => names
  end.

Definition added_names (cs : list client_call) : list string :=
  foldl add_name [] cs.

(** The [level] and [propagate] arguments of the last [add_logger] call
    for [logger] among [cs]. *)
Fixpoint last_call (cs : list client_call) (logger : string)
  : option (option string * bool) :=
  match cs with
  | [] => None
  | c :: cs' =>
      match last_call cs' logger with
      | Some args => Some args
      | None =>
          match c with
          | AddLogger l level propagate =>
              if String.eqb l logger then Some (level, propagate) else None
          | GetConfig => None
          end
      end
  end.

(** The route [add_logger] stores, given the handler names of the moment. *)
Definition route_for (self : LogManager) (names : list string)
    (args : option string * bool) : Route :=
  {| route_propagate := VBool args.2;
     route_handlers := VStr <$> names;
     route_level := level_or_default self args.1 |}.

(** A dict of references to dicts, read with the dicts it refers to. *)
Fixpoint deref_entries (h : heap) (d : dict) : option (list (string * dict)) :=
  match d with
  | [] => Some []
  | (k, v) :: d' =>
      match deref_dict h v, deref_entries h d' with
      | Some x, Some t => Some ((k, x) :: t)
      | _, _ => None
      end
  end.

(** The handlers and the formatters of a configuration, with their entries. *)
Definition handler_table (h : heap) (c : val) : option (list (string * dict)) :=
  cv ← config_view h c; deref_entries h (cfg_handlers cv).

Definition formatter_table (h : heap) (c : val) : option (list (string * dict)) :=
  cv ← config_view h c; deref_entries h (cfg_formatters cv).

(** [c[key]] for a configuration dict [c]. *)
Definition config_setting (h : heap) (c : val) (key : string) : option val :=
  d ← deref_dict h c; dict_get d key.

Definition console_handler : dict :=
  [("class", VStr "logging.StreamHandler"); ("formatter", VStr "basic")].

Definition file_handler {FS Exn} (os : OS FS Exn) (app_name log_dir : string)
  : dict :=
  [("class", VStr "logging.handlers.TimedRotatingFileHandler");
   ("formatter", VStr "full");
   ("filename", VStr (path_join os log_dir (app_name ++ ".log")));
   ("when", VStr "midnight")].

Definition cloudwatch_handler (app_name : string) (log_group : option string)
  : dict :=
  [("class", VStr "watchtower.CloudWatchLogHandler");
   ("formatter", VStr "full");
   ("log_group", opt_val log_group);
   ("stream_name", VStr (app_name ++ "-{strftime:%Y-%m-%d}"));
   ("use_queues", VBool true);
   ("create_log_group", VBool false)].

Definition expected_handler_table {FS Exn} (os : OS FS Exn) (app_name : string)
    (log_group log_dir : option string) : list (string * dict) :=
  ([("console", console_handler)]
   ++ match log_dir with
      | Some d => if truthy d then [("file", file_handler os app_name d)] else []
      | None => []
      end
   ++ (if opt_truthy log_group
       then [("cloudwatch", cloudwatch_handler app_name log_group)] else []))%list.

Definition formatter_templates : list (string * dict) :=
  [("default", [("format", VStr "%(levelname)s [%(asctime)s] %(message)s")]);
   ("basic",
    [("format",
      VStr "%(asctime)s %(levelname)s %(processName)s %(name)s %(message)s")]);
   ("full",
    [("format",
      VStr ("%(asctime)s %(levelname)s %(processName)s %(name)s  "
            ++ "%(filename)s:%(lineno)d %(message)s"))]);
   ("db",
    [("format",
      VStr ("[%(asctime)s]" ++ newline ++ "%(message)s" ++ newline))])].

(** The call [DefaultLogManager] makes for a logger name. *)
Definition register (logger : string) : client_call :=
  AddLogger logger None false.

(** The names a [DefaultLogManager] registers: the default ones, then
    those of its [loggers] argument ([None] and the empty list alike give
    none). *)
Definition requested_loggers (loggers : option (list string)) : list string :=
  (default_loggers ++ default [] loggers)%list.

(** Every reference in [d] is to an object that calls on [m] leave alone. *)
Definition refs_kept (m : LogManager) (d : dict) : Prop :=
  Forall (λ kv, ∀ x, kv.2 = VRef x → x ≠ _config m ∧ x ≠ _loggers m) d.

End ManagerObservations.

(** ** Facts about the string primitives *)

Module PyStrFacts.

Import PyStr.

Lemma split_cons sep s : ∃ xs, split sep s = before_first sep s :: xs.
Proof.
  induction s as [|c s [xs IH]]; simpl; [by eexists|].
  destruct (Ascii.eqb c sep); [by eexists|].
  rewrite IH. by eexists.
Qed.

Lemma truthy_false s : truthy s = false ↔ s = "".
Proof. destruct s; simpl; split; congruence. Qed.

Lemma truthy_true s : truthy s = true ↔ s ≠ "".
Proof. destruct s; simpl; split; congruence. Qed.

Lemma append_cons x (a b : string) : String x a ++ b = String x (a ++ b).
Proof. reflexivity. Qed.

Lemma append_assoc (a b c : string) : (a ++ b) ++ c = a ++ b ++ c.
Proof. induction a as [|x a IH]; [done|]. by rewrite !append_cons, IH. Qed.

Lemma strip_empty : strip "" = "".
Proof. reflexivity. Qed.


End PyStrFacts.

(** ** Properties of the request-logging middleware *)

Module MiddlewareSpec.

Import PyStr PyStrFacts Middleware RequestScenarios.

Lemma first_field_before s : first_field s = before_first comma s.
Proof. unfold first_field. by destruct (split_cons comma s) as [xs ->]. Qed.

(** C2, counterexample: with no forwarded header and the remote address
    [" 9.9.9.9 "], [get_client_ip] returns ["9.9.9.9"], which is not the
    remote address the specification's reading returns. *)
Lemma get_client_ip_trims_remote_addr :
  get_client_ip padded_remote "-" = "9.9.9.9"
  ∧ ResolveClientIP padded_remote "-" = " 9.9.9.9 "
  ∧ get_client_ip padded_remote "-" ≠ ResolveClientIP padded_remote "-".
Proof. by vm_compute. Qed.

(** C2 (amended): [get_client_ip] returns the trimmed part of the
    forwarded header before its first comma when that header is present
    and non-empty after trimming; otherwise the trimmed remote address when
    present; otherwise the trimmed default. *)
Theorem get_client_ip_resolution request default :
  get_client_ip request default = ResolveClientIP_trimmed request default.
Proof.
  unfold get_client_ip, ResolveClientIP_trimmed, fallback_addr.
  destruct (META request !! "HTTP_X_FORWARDED_FOR") as [h|]; [|done].
  destruct (truthy h) eqn:Hh.
  - rewrite first_field_before. by destruct (truthy (strip h)).
  - apply truthy_false in Hh as ->. done.
Qed.

(** C10: when the forwarded header is non-empty after trimming but its
    part before the first comma is only white space, [get_client_ip]
    returns the empty string whatever the remote address and the default
    are; the header [" ,5.6.7.8"] is such an input. *)
Theorem get_client_ip_blank_first_field request default h :
  META request !! "HTTP_X_FORWARDED_FOR" = Some h →
  strip h ≠ "" →
  strip (before_first comma h) = "" →
  get_client_ip request default = ""
  ∧ ∀ request' default',
      META request' !! "HTTP_X_FORWARDED_FOR" = Some h →
      get_client_ip request' default' = get_client_ip request default.
Proof.
  intros Hh Hne Hblank.
  assert (∀ r d, META r !! "HTTP_X_FORWARDED_FOR" = Some h →
                 get_client_ip r d = "") as Hall.
  { intros r d Hr. rewrite get_client_ip_resolution.
    unfold ResolveClientIP_trimmed. rewrite Hr.
    apply truthy_true in Hne. by rewrite Hne. }
  split; [by apply Hall|].
  intros r d Hr. by rewrite !Hall.
Qed.

Lemma get_client_ip_blank_first_field_witness :
  get_client_ip blank_first_hop "-" = ""
  ∧ META blank_first_hop !! "REMOTE_ADDR" = Some "9.9.9.9".
Proof.
  split; [|by vm_compute].
  apply (get_client_ip_blank_first_field blank_first_hop "-" " ,5.6.7.8");
    by vm_compute.
Defined.

(** C3: on a request without [user] attribute the [finally] block of
    [__call__] raises [AttributeError] before anything is logged: whatever
    the inner pipeline did, no line is emitted, and its response or
    exception is replaced by the [AttributeError]. *)
Theorem call_without_user_logs_nothing {E}
    (get_response : Request → M (option Response))
    (request : Request) (log log1 : list string)
    (outcome : exception E + option Response) :
  user request = Missing →
  get_response request log = (log1, outcome) →
  log_line request (seen_response outcome) = None
  ∧ __call__ get_response request log = (log1, inl (AttributeError "user")).
Proof.
  intros Huser Hinner.
  assert (∀ response, log_line request response = None) as Hline.
  { intros response. unfold log_line, log_fields, _get_user_id.
    by rewrite Huser. }
  split; [apply Hline|].
  unfold __call__, _log_request. rewrite Hinner, Hline. reflexivity.
Qed.

Lemma call_without_user_logs_nothing_witness :
  __call__ failing_pipeline health_check_without_user ["earlier"]
  = (["earlier"; "inner"], inl (AttributeError "user")).
Proof.
  exact (proj2 (call_without_user_logs_nothing failing_pipeline
                  health_check_without_user ["earlier"] ["earlier"; "inner"]
                  (inl (Raised "boom")) eq_refl eq_refl)).
Defined.




End MiddlewareSpec.

(** ** Facts about dicts and the heap *)

Module HeapFacts.

Import Heap.

Lemma dict_get_set_eq d k v : dict_get (dict_set d k v) k = Some v.
Proof.
  induction d as [|[k' v'] d IH]; simpl.
  - by rewrite String.eqb_refl.
  - destruct (String.eqb k' k) eqn:E; simpl; by rewrite E.
Qed.

Lemma dict_get_set_ne d k k' v :
  k ≠ k' → dict_get (dict_set d k v) k' = dict_get d k'.
Proof.
  intros Hne. induction d as [|[k0 v0] d IH]; simpl.
  - by apply String.eqb_neq in Hne as ->.
  - destruct (String.eqb k0 k) eqn:E; simpl; [|by rewrite IH].
    apply String.eqb_eq in E as ->.
    by apply String.eqb_neq in Hne as ->.
Qed.

Lemma dict_get_Some d k v : dict_get d k = Some v → (k, v) ∈ d.
Proof.
  induction d as [|[k' v'] d IH]; simpl; [done|].
  destruct (String.eqb k' k) eqn:E.
  - apply String.eqb_eq in E as ->. intros [= ->]. left.
  - intros H. right. by apply IH.
Qed.

Lemma keys_cons k v d : keys ((k, v) :: d) = k :: keys d.
Proof. reflexivity. Qed.

Lemma dict_get_None d k : dict_get d k = None ↔ k ∉ keys d.
Proof.
  induction d as [|[k' v'] d IH]; cbn [dict_get].
  - split; [intros _; apply not_elem_of_nil|done].
  - rewrite keys_cons, not_elem_of_cons. destruct (String.eqb k' k) eqn:E.
    + apply String.eqb_eq in E. split; [done|]. intros [Hne _]. by subst.
    + apply String.eqb_neq in E. rewrite IH.
      split; [intros ?; split; [congruence|done]|by intros [_ ?]].
Qed.

Lemma keys_dict_set d k v :
  keys (dict_set d k v)
  = if decide (k ∈ keys d) then keys d else (keys d ++ [k])%list.
Proof.
  induction d as [|[k' v'] d IH]; cbn [dict_set].
  - done.
  - rewrite (keys_cons k' v' d).
    destruct (String.eqb k' k) eqn:E; rewrite keys_cons.
    + apply String.eqb_eq in E as ->. by rewrite decide_True by left.
    + apply String.eqb_neq in E. rewrite IH.
      destruct (decide (k ∈ keys d)) as [Hin|Hni].
      * by rewrite decide_True by (by right).
      * rewrite decide_False; [done|]. rewrite not_elem_of_cons.
        split; [congruence|done].
Qed.

Lemma elem_of_dict_set d k v k' v' :
  (k', v') ∈ dict_set d k v → (k' = k ∧ v' = v) ∨ (k', v') ∈ d.
Proof.
  induction d as [|[k0 v0] d IH]; simpl.
  - intros [= -> ->]%list_elem_of_singleton. by left.
  - destruct (String.eqb k0 k) eqn:E.
    + apply String.eqb_eq in E as ->.
      intros [[= -> ->]|?]%elem_of_cons; [by left|]. right. by right.
    + intros [[= -> ->]|?]%elem_of_cons; [right; left|].
      destruct IH as [?|?]; [done|by left|]. right. by right.
Qed.

Lemma NoDup_keys_dict_set d k v : NoDup (keys d) → NoDup (keys (dict_set d k v)).
Proof.
  intros Hnd. rewrite keys_dict_set. case_decide; [done|].
  apply NoDup_app. split; [done|]. split; [|apply NoDup_singleton].
  intros x Hx ->%list_elem_of_singleton. done.
Qed.

Lemma alloc_app h t o :
  alloc o (h ++ t)%list = (length h + length t, (h ++ (t ++ [o]))%list).
Proof. unfold alloc. by rewrite length_app, app_assoc. Qed.

Lemma lookup_offset (h t : heap) i : (h ++ t)%list !! (length h + i) = t !! i.
Proof. rewrite lookup_app_r by lia. f_equal. lia. Qed.

Lemma setitem_app h t i k v :
  setitem (length h + i) k v (h ++ t)%list = (tt, (h ++ (setitem i k v t).2)%list).
Proof.
  unfold setitem. rewrite lookup_offset.
  destruct (t !! i) as [[d|xs]|]; simpl; [|done..].
  by rewrite insert_app_r.
Qed.

Lemma setitem_dict h l d k v :
  h !! l = Some (ODict d) →
  setitem l k v h = (tt, <[l := ODict (dict_set d k v)]> h).
Proof. unfold setitem. by intros ->. Qed.


End HeapFacts.

(** ** The invariant is established and preserved *)

Module ManagerFacts.

Import PyStr Heap Manager HeapFacts Views Invariant.

Local Arguments alloc : simpl never.

Ltac solve_lookup := rewrite ?lookup_offset; reflexivity.

Ltac solve_private :=
  unfold private; cbn [_config _loggers _handlers]; lia.

Ltac solve_handler_ok :=
  eexists _, _, _; split; [reflexivity|]; split; [solve_private|];
  split; [solve_lookup|]; split; [reflexivity|]; set_solver.

Ltac solve_init_wf :=
  eexists _, _, _, _, _; split; cbn [_config _loggers _handlers];
  [ lia | lia | lia | solve_lookup
  | repeat (constructor; [solve_handler_ok|]); constructor
  | solve_lookup | constructor | constructor | solve_lookup | reflexivity
  | reflexivity | solve_private | solve_lookup | reflexivity ].

Lemma init_run {FS Exn} (os : OS FS Exn) app lvl grp dir fs h0 m fs' h :
  __init__ os app lvl grp dir fs h0 = inr (m, fs', h) →
  wf m h ∧ handler_names m h = Some (expected_handlers grp dir)
  ∧ dict_at h (_loggers m) = Some [].
Proof.
  intros H. rewrite <- (app_nil_r h0) in H.
  unfold __init__, new_config, new_handlers in H.
  unfold mbind, St_bind in H.
  rewrite !alloc_app in H. cbn [length List.app Nat.add] in H.
  unfold expected_handlers, handler_names, dict_at.
  destruct dir as [d|]; cbn [opt_truthy]; [destruct (truthy d)|];
    [unfold _add_file_handler in H;
     destruct (negb (path_exists os fs d));
     [destruct (makedirs os fs d); [done|]|];
     unfold mbind, St_bind in H;
     rewrite alloc_app, setitem_app in H; simpl in H
    |..];
    (destruct (opt_truthy grp);
     [unfold _add_cloudwatch_handler, mbind, St_bind in H;
      rewrite alloc_app, setitem_app in H; simpl in H|];
     unfold alloc in H; rewrite ?length_app, <- ?app_assoc in H; simpl in H;
     injection H as <- <- <-; cbn [_config _loggers _handlers];
     (split; [solve_init_wf|]);
     rewrite !lookup_offset; done).
Qed.

Lemma init_outcome {FS Exn} (os : OS FS Exn) app lvl grp dir fs h0 :
  match __init__ os app lvl grp dir fs h0 with
  | inl e => dir_outcome os dir fs = inl e
  | inr (m, fs', h) =>
      dir_outcome os dir fs = inr fs'
      ∧ _app_name m = app ∧ _log_dir m = dir ∧ _log_group m = grp
      ∧ _default_log_level m = lvl
  end.
Proof.
  unfold __init__, dir_outcome, _add_file_handler.
  destruct (new_config h0) as [c h1]. destruct (new_handlers h1) as [hs h2].
  destruct dir as [d|]; [destruct (truthy d)|];
    [destruct (path_exists os fs d); cbn [negb];
     [|destruct (makedirs os fs d); [done|]];
     match goal with |- context [mbind ?f ?x ?h] =>
       destruct (mbind f x h) as [? ?] end
    |..];
    match goal with |- context [alloc ?o ?h] =>
      destruct (alloc o h) as [? ?] end; done.
Qed.

Lemma handler_ok_frame m h h' v :
  frame m h h' → handler_ok m h v → handler_ok m h' v.
Proof.
  intros Hf (x & d & f & -> & Hp & Hx & Hd & Hin).
  exists x, d, f. split_and!; try done. apply Hf; [apply Hp..|done].
Qed.

Lemma route_ok_frame m h h' names v :
  frame m h h' → route_ok m h names v → route_ok m h' names v.
Proof.
  intros Hf (r & hl & p & lv & -> & Hr & Hhl & Hd & Hl).
  exists r, hl, p, lv. split_and!; try done.
  - apply Hf; [apply Hr..|done].
  - apply Hf; [apply Hhl..|done].
Qed.

(** The effect of [add_logger] on a well-formed heap. *)
Lemma add_logger_run m h hd ld cd fl fd logger level propagate :
  wf_with m h hd ld cd fl fd →
  (add_logger m logger level propagate h).2
  = <[_loggers m := ODict (dict_set ld logger (VRef (S (length h))))]>
      (h ++ [OList (VStr <$> keys hd);
             ODict [("propagate", VBool propagate);
                    ("handlers", VRef (length h));
                    ("level", level_or_default m level)]])%list.
Proof.
  intros W. unfold add_logger, keys_at, dict_at, mbind, St_bind.
  rewrite (wf_handlers _ _ _ _ _ _ _ W). cbn [fmap option_fmap option_map default].
  unfold alloc. rewrite length_app, <- app_assoc. cbn [length List.app].
  rewrite Nat.add_1_r.
  erewrite setitem_dict; [done|].
  apply lookup_app_l_Some, (wf_loggers _ _ _ _ _ _ _ W).
Qed.

Lemma add_logger_wf m h hd ld cd fl fd logger level propagate :
  wf_with m h hd ld cd fl fd →
  wf_with m (add_logger m logger level propagate h).2
    hd (dict_set ld logger (VRef (S (length h)))) cd fl fd.
Proof.
  intros W. rewrite (add_logger_run _ _ _ _ _ _ _ _ _ _ W).
  pose proof W as [Hch Hcl Hhl Hh Hhok Hl Hlok Hnd Hc Hck Hf Hfp Hfl Hfk].
  pose proof (lookup_lt_Some _ _ _ Hh) as Lh.
  pose proof (lookup_lt_Some _ _ _ Hl) as Ll.
  pose proof (lookup_lt_Some _ _ _ Hc) as Lc.
  set (h1 := (h ++ _)%list).
  set (h2 := <[_loggers m := _]> h1).
  assert (∀ l o, l ≠ _loggers m → h !! l = Some o → h2 !! l = Some o) as Keep.
  { intros l o Hne Hlo. unfold h2. rewrite list_lookup_insert_ne by done.
    by apply lookup_app_l_Some. }
  assert (frame m h h2) as Fr by (intros l o _; apply Keep).
  split; try done.
  - by apply Keep.
  - eapply Forall_impl; [exact Hhok|]. intros kv. apply handler_ok_frame, Fr.
  - apply list_lookup_insert_eq. unfold h1. rewrite length_app. lia.
  - apply Forall_forall. intros [k v] Hin.
    apply elem_of_dict_set in Hin as [[-> ->]|Hin].
    + exists (S (length h)), (length h), propagate, (level_or_default m level).
      split; [done|]. split; [unfold private; lia|].
      split; [unfold private; lia|]. unfold h2, h1. split.
      * rewrite list_lookup_insert_ne by lia.
        rewrite (lookup_app_r h) by lia.
        by replace (S (length h) - length h) with 1 by lia.
      * rewrite list_lookup_insert_ne by lia.
        rewrite (lookup_app_r h) by lia.
        by replace (length h - length h) with 0 by lia.
    + eapply route_ok_frame; [exact Fr|].
      by apply (proj1 (Forall_forall _ _) Hlok (k, v)).
  - by apply NoDup_keys_dict_set.
  - by apply Keep.
  - apply Keep; [apply Hfp|done].
Qed.

Lemma config_run m h hd ld cd fl fd :
  wf_with m h hd ld cd fl fd →
  config m h = (VRef (_config m), <[_config m := ODict (refreshed m cd)]> h).
Proof.
  intros W. unfold config, mbind, St_bind, mret, St_ret.
  pose proof (wf_config _ _ _ _ _ _ _ W) as Hc.
  pose proof (lookup_lt_Some _ _ _ Hc) as Lc.
  erewrite setitem_dict by exact Hc.
  erewrite setitem_dict by (by apply list_lookup_insert_eq).
  by rewrite list_insert_insert_eq.
Qed.

Lemma config_wf m h hd ld cd fl fd :
  wf_with m h hd ld cd fl fd →
  wf_with m (config m h).2 hd ld (refreshed m cd) fl fd.
Proof.
  intros W. rewrite (config_run _ _ _ _ _ _ _ W).
  pose proof W as [Hch Hcl Hhl Hh Hhok Hl Hlok Hnd Hc Hck Hf Hfp Hfl Hfk].
  pose proof (lookup_lt_Some _ _ _ Hc) as Lc.
  assert (frame m h (<[_config m := ODict (refreshed m cd)]> h)) as Fr.
  { intros l o Hne _ Hlo. by rewrite list_lookup_insert_ne. }
  cbn [snd]. split; try done.
  - by rewrite list_lookup_insert_ne.
  - eapply Forall_impl; [exact Hhok|]. intros kv. apply handler_ok_frame, Fr.
  - by rewrite list_lookup_insert_ne.
  - eapply Forall_impl; [exact Hlok|]. intros kv. apply route_ok_frame, Fr.
  - by apply list_lookup_insert_eq.
  - unfold refreshed. rewrite !keys_dict_set, Hck. done.
  - unfold refreshed. by rewrite !dict_get_set_ne by discriminate.
  - rewrite list_lookup_insert_ne; [done|]. destruct Hfp as [? _]. congruence.
Qed.


End ManagerFacts.

(** ** Properties of the configuration builder *)

Module ManagerSpec.

Import PyStr Heap Manager HeapFacts Views Invariant ManagerFacts Scenarios.

Lemma reachable_wf m h : reachable m h → wf m h.
Proof.
  induction 1 as [FS Exn os app lvl grp dir fs h0 m fs' h Hinit
                 |m h c _ (hd & ld & cd & fl & fd & W)].
  - by apply init_run in Hinit as [? _].
  - destruct c as [logger level propagate|]; cbn [do_call].
    + eexists _, _, _, _, _. by apply add_logger_wf.
    + eexists _, _, _, _, _. by apply config_wf.
Qed.

Lemma route_at_view h r hl p names lv :
  route_at h r hl p names lv →
  route_view h (VRef r)
  = Some {| route_propagate := VBool p;
            route_handlers := VStr <$> names;
            route_level := lv |}.
Proof.
  intros [Hr Hl].
  unfold route_view, deref_dict, deref_list, dict_at, list_at.
  rewrite Hr. cbn. by rewrite Hl.
Qed.

Lemma route_ok_at m h names v :
  route_ok m h names v → ∃ r hl p lv, v = VRef r ∧ route_at h r hl p names lv.
Proof.
  intros (r & hl & p & lv & -> & _ & _ & Hr & Hl). by exists r, hl, p, lv.
Qed.

Lemma add_logger_route_at m h hd ld cd fl fd logger level propagate :
  wf_with m h hd ld cd fl fd →
  route_at (add_logger m logger level propagate h).2 (S (length h)) (length h)
    propagate (keys hd) (level_or_default m level)
  ∧ dict_at (add_logger m logger level propagate h).2 (_loggers m)
    = Some (dict_set ld logger (VRef (S (length h)))).
Proof.
  intros W. pose proof (add_logger_wf _ _ _ _ _ _ _ logger level propagate W) as W'.
  rewrite (add_logger_run _ _ _ _ _ _ _ _ _ _ W) in *.
  pose proof (lookup_lt_Some _ _ _ (wf_loggers _ _ _ _ _ _ _ W)) as Ll.
  split; [split|].
  - rewrite list_lookup_insert_ne by lia. rewrite (lookup_app_r h) by lia.
    by replace (S (length h) - length h) with 1 by lia.
  - rewrite list_lookup_insert_ne by lia. rewrite (lookup_app_r h) by lia.
    by replace (length h - length h) with 0 by lia.
  - unfold dict_at. by rewrite (wf_loggers _ _ _ _ _ _ _ W').
Qed.

Lemma logger_route_at m h ld logger r hl p names lv :
  dict_at h (_loggers m) = Some ld →
  dict_get ld logger = Some (VRef r) →
  route_at h r hl p names lv →
  logger_route m h logger
  = Some {| route_propagate := VBool p;
            route_handlers := VStr <$> names;
            route_level := lv |}.
Proof.
  intros Hd Hg Hr. unfold logger_route. rewrite Hd. cbn [mbind option_bind].
  rewrite Hg. cbn [mbind option_bind]. by eapply route_at_view.
Qed.

Lemma setitem_lookup_ne l0 k v (h : heap) l :
  l ≠ l0 → (setitem l0 k v h).2 !! l = h !! l.
Proof.
  intros Hne. unfold setitem. destruct (h !! l0) as [[d|xs]|]; [|done..].
  cbn [snd]. by rewrite list_lookup_insert_ne.
Qed.

Lemma filter_key_absent (d : dict) k :
  k ∉ keys d → filter (λ kv, kv.1 = k) d = [].
Proof.
  induction d as [|[k' v'] d IH]; [done|].
  rewrite keys_cons, not_elem_of_cons. intros [Hne Hni].
  rewrite filter_cons. cbn [fst]. rewrite decide_False by congruence. auto.
Qed.

Lemma filter_key_once (d : dict) k :
  NoDup (keys d) → k ∈ keys d →
  length (filter (λ kv, kv.1 = k) d) = 1.
Proof.
  induction d as [|[k' v'] d IH]; [by intros _ ?%elem_of_nil|].
  rewrite keys_cons. intros [Hni Hnd]%NoDup_cons Hin.
  rewrite filter_cons. cbn [fst]. destruct (decide (k' = k)) as [->|Hne].
  - by rewrite filter_key_absent.
  - apply elem_of_cons in Hin as [->|Hin]; [done|]. auto.
Qed.

Lemma dict_set_key_in d k v : k ∈ keys (dict_set d k v).
Proof.
  rewrite keys_dict_set. case_decide; [done|].
  apply elem_of_app. right. apply list_elem_of_singleton. done.
Qed.

Lemma dict_set_twice d k v w : dict_set (dict_set d k v) k w = dict_set d k w.
Proof.
  induction d as [|[k' v'] d IH]; cbn [dict_set].
  - by rewrite String.eqb_refl.
  - destruct (String.eqb k' k) eqn:E; cbn [dict_set]; rewrite E; [done|].
    by rewrite IH.
Qed.

(** C5: two [add_logger] calls for one name leave exactly one route for
    it, a dict holding the second call's [propagate], the handler names and
    the second call's level (or the default level when that is [None] or
    empty); the route mapping is the one the second call alone produces. *)
Theorem add_logger_twice_last_wins m h logger level1 propagate1
    level2 propagate2 :
  reachable m h →
  let h1 := (add_logger m logger level1 propagate1 h).2 in
  let h2 := (add_logger m logger level2 propagate2 h1).2 in
  ∃ names ld,
    handler_names m h = Some names
    ∧ dict_at h2 (_loggers m) = Some ld
    ∧ length (filter (λ kv, kv.1 = logger) ld) = 1
    ∧ logger_route m h2 logger
      = Some {| route_propagate := VBool propagate2;
                route_handlers := VStr <$> names;
                route_level := level_or_default m level2 |}
    ∧ logger_names m h2
      = logger_names m (add_logger m logger level2 propagate2 h).2.
Proof.
  intros (hd & ld & cd & fl & fd & W)%reachable_wf h1 h2.
  pose proof (add_logger_wf _ _ _ _ _ _ _ logger level1 propagate1 W) as W1.
  fold h1 in W1.
  pose proof (add_logger_wf _ _ _ _ _ _ _ logger level2 propagate2 W1) as W2.
  destruct (add_logger_route_at _ _ _ _ _ _ _ logger level2 propagate2 W1)
    as [Hr Hd].
  destruct (add_logger_route_at _ _ _ _ _ _ _ logger level2 propagate2 W)
    as [_ Hd'].
  fold h2 in W2, Hr, Hd. rewrite dict_set_twice in Hd, W2.
  exists (keys hd), (dict_set ld logger (VRef (S (length h1)))).
  split; [unfold handler_names, dict_at; by rewrite (wf_handlers _ _ _ _ _ _ _ W)|].
  split; [done|]. split.
  { apply filter_key_once; [apply (wf_loggers_nodup _ _ _ _ _ _ _ W2)|].
    apply dict_set_key_in. }
  split.
  - eapply logger_route_at; [exact Hd|apply dict_get_set_eq|exact Hr].
  - unfold logger_names. rewrite Hd, Hd'. cbn. by rewrite !keys_dict_set.
Qed.

(** C6: [add_logger] stores for [logger] a route whose handler list is
    a new list of all handler names present at the call, and whose level
    is the default level when the argument is [None]; writing to the
    handler mapping afterwards, directly or through
    [_add_cloudwatch_handler], leaves the route as it was. *)
Theorem add_logger_snapshots_handler_names m h logger level propagate :
  reachable m h →
  let h' := (add_logger m logger level propagate h).2 in
  ∃ names,
    handler_names m h = Some names
    ∧ logger_route m h' logger
      = Some {| route_propagate := VBool propagate;
                route_handlers := VStr <$> names;
                route_level := level_or_default m level |}
    ∧ level_or_default m None = opt_val (_default_log_level m)
    ∧ (∀ k v,
         logger_route m (setitem (_handlers m) k v h').2 logger
         = logger_route m h' logger)
    ∧ (∀ app grp fmt,
         let h'' := (_add_cloudwatch_handler app grp (_handlers m) fmt h').2 in
         logger_route m h'' logger = logger_route m h' logger
         ∧ handler_names m h''
           = Some (if decide ("cloudwatch" ∈ names) then names
                   else names ++ ["cloudwatch"])%list).
Proof.
  intros (hd & ld & cd & fl & fd & W)%reachable_wf h'.
  pose proof (add_logger_wf _ _ _ _ _ _ _ logger level propagate W) as W'.
  destruct (add_logger_route_at _ _ _ _ _ _ _ logger level propagate W)
    as [Hr Hd].
  fold h' in W', Hr, Hd.
  pose proof W as [Hch Hcl Hhl Hh Hhok Hl Hlok Hnd Hc Hck Hf Hfp Hfl Hfk].
  pose proof (lookup_lt_Some _ _ _ Hh) as Lh.
  pose proof (wf_handlers _ _ _ _ _ _ _ W') as Hh'.
  assert (logger_route m h' logger
          = Some {| route_propagate := VBool propagate;
                    route_handlers := VStr <$> keys hd;
                    route_level := level_or_default m level |}) as Hroute.
  { eapply logger_route_at; [exact Hd|apply dict_get_set_eq|exact Hr]. }
  exists (keys hd).
  split; [unfold handler_names, dict_at; by rewrite Hh|].
  split; [done|]. split; [done|]. split.
  - intros k v. rewrite Hroute. destruct Hr as [Hr1 Hr2].
    eapply logger_route_at; [| apply dict_get_set_eq |split].
    + unfold dict_at. rewrite setitem_lookup_ne by congruence.
      exact Hd.
    + rewrite setitem_lookup_ne by lia. exact Hr1.
    + rewrite setitem_lookup_ne by lia. exact Hr2.
  - intros app grp fmt h''. unfold h'', _add_cloudwatch_handler, mbind, St_bind.
    unfold alloc. pose proof (wf_loggers _ _ _ _ _ _ _ W') as Hl'. split.
    + rewrite Hroute. destruct Hr as [Hr1 Hr2].
      eapply logger_route_at; [| apply dict_get_set_eq |split].
      * unfold dict_at. rewrite setitem_lookup_ne by congruence.
        by rewrite (lookup_app_l_Some _ _ _ _ Hl').
      * rewrite setitem_lookup_ne by lia. by apply lookup_app_l_Some.
      * rewrite setitem_lookup_ne by lia. by apply lookup_app_l_Some.
    + unfold handler_names, dict_at.
      erewrite setitem_dict by (by apply lookup_app_l_Some).
      cbn [snd]. rewrite list_lookup_insert_eq.
      * cbn. by rewrite keys_dict_set.
      * rewrite length_app. pose proof (lookup_lt_Some _ _ _ Hh'). lia.
Qed.

Lemma wf_config_view m h hd ld cd fl fd :
  wf_with m h hd ld cd fl fd →
  dict_get cd "handlers" = Some (VRef (_handlers m)) →
  dict_get cd "loggers" = Some (VRef (_loggers m)) →
  config_view h (VRef (_config m))
  = Some {| cfg_formatters := fd; cfg_handlers := hd; cfg_loggers := ld |}.
Proof.
  intros [Hch Hcl Hhl Hh Hhok Hl Hlok Hnd Hc Hck Hf Hfp Hfl Hfk] Hgh Hgl.
  unfold config_view, deref_dict, dict_at. rewrite Hc. cbn [mbind option_bind].
  rewrite Hf, Hgh, Hgl. cbn [mbind option_bind]. by rewrite Hfl, Hh, Hl.
Qed.

Lemma refreshed_handlers m cd :
  dict_get (refreshed m cd) "handlers" = Some (VRef (_handlers m)).
Proof.
  unfold refreshed. rewrite dict_get_set_ne by discriminate.
  apply dict_get_set_eq.
Qed.

Lemma refreshed_loggers m cd :
  dict_get (refreshed m cd) "loggers" = Some (VRef (_loggers m)).
Proof. apply dict_get_set_eq. Qed.

Lemma refreshed_idemp m cd :
  keys cd = ["version"; "disable_existing_loggers"; "formatters";
             "handlers"; "loggers"] →
  refreshed m (refreshed m cd) = refreshed m cd.
Proof.
  destruct cd as [|[k1 v1] [|[k2 v2] [|[k3 v3] [|[k4 v4] [|[k5 v5] [|? ?]]]]]];
    try done.
  by intros [= -> -> -> -> ->].
Qed.

Lemma wf_cross_references m h hd ld cd fl fd :
  wf_with m h hd ld cd fl fd →
  cross_references_hold h
    {| cfg_formatters := fd; cfg_handlers := hd; cfg_loggers := ld |}.
Proof.
  intros [Hch Hcl Hhl Hh Hhok Hl Hlok Hnd Hc Hck Hf Hfp Hfl Hfk].
  split; cbn [cfg_formatters cfg_handlers cfg_loggers].
  - intros logger v Hin.
    apply (proj1 (Forall_forall _ _) Hlok) in Hin. cbn [snd] in Hin.
    apply route_ok_at in Hin as (r & hl & p & lv & Hv & Hr). subst v.
    eexists. split; [by eapply route_at_view|].
    cbn [route_handlers]. intros x (name & -> & Hname)%list_elem_of_fmap.
    by exists name.
  - intros name v Hin.
    apply (proj1 (Forall_forall _ _) Hhok) in Hin. cbn [snd] in Hin.
    destruct Hin as (x & d & f & Hv & _ & Hx & Hd & Hf'). subst v.
    exists f. split.
    + unfold handler_formatter, deref_dict, dict_at. cbn [snd].
      rewrite Hx. cbn [mbind option_bind]. by rewrite Hd.
    + by rewrite Hfk.
Qed.

(** C7: in the configuration read from a manager after construction and
    any calls, every handler a route lists is in the handler mapping and
    every formatter a handler names is in the formatter mapping. *)
Theorem config_cross_references m h :
  reachable m h →
  ∃ cv, config_view (config m h).2 (config m h).1 = Some cv
        ∧ cross_references_hold (config m h).2 cv.
Proof.
  intros (hd & ld & cd & fl & fd & W)%reachable_wf.
  pose proof (config_wf _ _ _ _ _ _ _ W) as W'.
  rewrite (config_run _ _ _ _ _ _ _ W) in *. cbn [fst snd] in *.
  eexists. split.
  - eapply wf_config_view;
      [exact W'|apply refreshed_handlers|apply refreshed_loggers].
  - by eapply wf_cross_references.
Qed.

(** C4 (amended): reading [config] returns the manager's own
    configuration dict, the same object at every read, after storing in
    it references to the current handler and route mappings; no other
    object changes, a second read changes nothing, the result shows the
    handlers and routes of the moment, and a route added afterwards shows
    through the result already returned. *)
Theorem config_returns_live_dict m h :
  reachable m h →
  let h' := (config m h).2 in
  (config m h).1 = VRef (_config m)
  ∧ (∀ l, l ≠ _config m → h' !! l = h !! l)
  ∧ config m h' = (VRef (_config m), h')
  ∧ (∃ cv, config_view h' (VRef (_config m)) = Some cv
           ∧ dict_at h (_handlers m) = Some (cfg_handlers cv)
           ∧ dict_at h (_loggers m) = Some (cfg_loggers cv))
  ∧ (∀ logger level propagate,
       let h'' := (add_logger m logger level propagate h').2 in
       ∃ cv, config_view h'' (VRef (_config m)) = Some cv
             ∧ dict_at h'' (_loggers m) = Some (cfg_loggers cv)
             ∧ logger ∈ keys (cfg_loggers cv)).
Proof.
  intros (hd & ld & cd & fl & fd & W)%reachable_wf h'.
  pose proof (config_wf _ _ _ _ _ _ _ W) as W'. fold h' in W'.
  pose proof (config_run _ _ _ _ _ _ _ W) as Hrun.
  assert (h' = <[_config m := ODict (refreshed m cd)]> h) as Hh'
    by (unfold h'; by rewrite Hrun).
  split; [by rewrite Hrun|]. split.
  { intros l Hne. rewrite Hh'. by apply list_lookup_insert_ne. }
  split.
  { rewrite (config_run _ _ _ _ _ _ _ W').
    rewrite refreshed_idemp by apply (wf_config_keys _ _ _ _ _ _ _ W).
    f_equal. rewrite Hh' at 2. rewrite Hh'. by rewrite list_insert_insert_eq. }
  split.
  { eexists. split.
    - eapply wf_config_view;
        [exact W'|apply refreshed_handlers|apply refreshed_loggers].
    - unfold dict_at. cbn [cfg_handlers cfg_loggers].
      by rewrite (wf_handlers _ _ _ _ _ _ _ W), (wf_loggers _ _ _ _ _ _ _ W). }
  intros logger level propagate h''.
  pose proof (add_logger_wf _ _ _ _ _ _ _ logger level propagate W') as W''.
  fold h'' in W''.
  eexists. split.
  - eapply wf_config_view;
      [exact W''|apply refreshed_handlers|apply refreshed_loggers].
  - cbn [cfg_loggers]. split.
    + unfold dict_at. by rewrite (wf_loggers _ _ _ _ _ _ _ W'').
    + apply dict_set_key_in.
Qed.

Lemma svc_reachable : reachable svc svc_heap.
Proof.
  apply (reach_init posix "svc" (Some "INFO") None (Some "/var/log/svc")
           fresh_fs [] svc svc_fs svc_heap).
  vm_compute. reflexivity.
Defined.

Lemma reachable_after_calls m cs h :
  reachable m h → reachable m (after_calls m cs h).
Proof.
  revert h. induction cs as [|c cs IH]; intros h Hr; [done|].
  apply IH. by constructor.
Qed.

Lemma add_loggers_calls m ls h :
  (_add_loggers m ls h).2
  = after_calls m ((λ l, AddLogger l None false) <$> ls) h.
Proof.
  revert h. induction ls as [|l ls IH]; intros h; [done|].
  cbn [_add_loggers fmap list_fmap after_calls foldl do_call].
  unfold mbind, St_bind.
  destruct (add_logger m l None false h) as [[] h1]. apply IH.
Qed.

Lemma reachable_add_loggers m ls h :
  reachable m h → reachable m (_add_loggers m ls h).2.
Proof. rewrite add_loggers_calls. apply reachable_after_calls. Qed.

(** What [DefaultLogManager] builds is a manager with routes added. *)
Lemma default_manager_reachable {FS Exn} (os : OS FS Exn) app lvl grp dir
    loggers fs h0 m fs' h :
  DefaultLogManager__init__ os app lvl grp dir loggers fs h0 = inr (m, fs', h) →
  reachable m h.
Proof.
  unfold DefaultLogManager__init__.
  destruct (__init__ os app lvl grp dir fs h0) as [e|[[m0 fs0] h1]] eqn:E;
    [done|].
  apply reach_init in E.
  apply (reachable_add_loggers _ default_loggers) in E.
  generalize dependent (_add_loggers m0 default_loggers h1).2.
  intros h2 Hr H. inversion H; subst; clear H.
  destruct loggers as [[|l ls]|]; try done.
  by apply (reachable_add_loggers _ (l :: ls)).
Qed.

(** C1, counterexample: an empty [log_dir] was given, yet no [file]
    handler exists. *)
Lemma empty_log_dir_has_no_file_handler :
  ∃ m fs' h names,
    __init__ posix "svc" (Some "INFO") None (Some "") fresh_fs []
    = inr (m, fs', h)
    ∧ handler_names m h = Some names
    ∧ ¬ handlers_as_claimed None (Some "") names.
Proof.
  eexists _, _, _, _. split; [reflexivity|]. split; [reflexivity|].
  intros Hc. assert ("file" ∈ ["console"]) as Hin.
  { apply Hc. right. left. by split. }
  by apply list_elem_of_singleton in Hin.
Qed.

(** C1 (amended): after construction the handler mapping holds exactly
    [console], then [file] if and only if [log_dir] was given and is not
    empty, then [cloudwatch] if and only if [log_group] was given and is not
    empty; construction raises only when a non-empty [log_dir] does not
    exist and cannot be created. *)
Theorem init_handler_names {FS Exn} (os : OS FS Exn) app lvl grp dir fs h0 :
  match __init__ os app lvl grp dir fs h0 with
  | inr (m, fs', h) => handler_names m h = Some (expected_handlers grp dir)
  | inl e =>
      ∃ d, dir = Some d ∧ d ≠ "" ∧ path_exists os fs d = false
           ∧ makedirs os fs d = inl e
  end.
Proof.
  pose proof (init_outcome os app lvl grp dir fs h0) as Hout.
  destruct (__init__ os app lvl grp dir fs h0) as [e|[[m fs'] h]] eqn:E.
  - unfold dir_outcome in Hout. destruct dir as [d|]; [|done].
    exists d. destruct d; [done|]. cbn [truthy] in Hout.
    destruct (path_exists os fs _); [done|]. by repeat split.
  - by apply init_run in E as (_ & ? & _).
Qed.

Lemma init_handler_names_witness :
  ∃ h, __init__ posix "svc" (Some "INFO") None (Some "/var/log/svc") fresh_fs []
       = inr (svc, svc_fs, h)
       ∧ handler_names svc h = Some ["console"; "file"].
Proof.
  pose proof (init_handler_names posix "svc" (Some "INFO") None
                (Some "/var/log/svc") fresh_fs []) as H.
  exists svc_heap. split; [by vm_compute|].
  replace (__init__ posix "svc" (Some "INFO") None (Some "/var/log/svc")
             fresh_fs []) with (inr (svc, svc_fs, svc_heap) : string + _) in H
    by (by vm_compute).
  exact H.
Defined.

Lemma init_empty_dir {FS Exn} (os : OS FS Exn) app lvl grp fs h0 :
  ∃ m m' h,
    __init__ os app lvl grp (Some "") fs h0 = inr (m, fs, h)
    ∧ __init__ os app lvl grp None fs h0 = inr (m', fs, h)
    ∧ layout m = layout m'.
Proof.
  unfold __init__. cbn [truthy].
  destruct (new_config h0) as [c h1]. destruct (new_handlers h1) as [hs h2].
  destruct (alloc _ _) as [l h5]. by eexists _, _, _.
Qed.

Lemma init_empty_group {FS Exn} (os : OS FS Exn) app lvl dir fs h0 :
  match __init__ os app lvl None dir fs h0 with
  | inl e => __init__ os app lvl (Some "") dir fs h0 = inl e
  | inr (m', fs', h) =>
      ∃ m, __init__ os app lvl (Some "") dir fs h0 = inr (m, fs', h)
           ∧ layout m = layout m'
  end.
Proof.
  unfold __init__. cbn [opt_truthy truthy].
  destruct (new_config h0) as [c h1]. destruct (new_handlers h1) as [hs h2].
  destruct dir as [d|];
    [destruct (truthy d);
     [destruct (_add_file_handler os app d hs "full" fs h2) as [e|[fs' h3]];
      [done|]|]|];
    destruct (alloc _ _) as [l h5]; by eexists.
Qed.

(** C9: an empty [log_dir] gives the constructor's result for an absent
    one: same heap, no [file] handler, the file system as it was (so
    [makedirs] was not called) and no exception; an empty [log_group] gives
    the result for an absent one, without [cloudwatch] handler. *)
Theorem empty_arguments_count_as_absent {FS Exn} (os : OS FS Exn)
    app lvl grp dir fs h0 :
  (∃ m m' h,
     __init__ os app lvl grp (Some "") fs h0 = inr (m, fs, h)
     ∧ __init__ os app lvl grp None fs h0 = inr (m', fs, h)
     ∧ layout m = layout m'
     ∧ handler_names m h
       = Some ("console" :: if opt_truthy grp then ["cloudwatch"] else []))
  ∧ match __init__ os app lvl None dir fs h0 with
    | inl e => __init__ os app lvl (Some "") dir fs h0 = inl e
    | inr (m', fs', h) =>
        ∃ m, __init__ os app lvl (Some "") dir fs h0 = inr (m, fs', h)
             ∧ layout m = layout m'
             ∧ handler_names m h
               = Some ("console" :: if opt_truthy dir then ["file"] else [])
    end.
Proof.
  split.
  - destruct (init_empty_dir os app lvl grp fs h0) as (m & m' & h & E1 & E2 & L).
    exists m, m', h. split_and!; try done.
    by apply init_run in E1 as (_ & -> & _).
  - pose proof (init_empty_group os app lvl dir fs h0) as H.
    destruct (__init__ os app lvl None dir fs h0) as [e|[[m' fs'] h]]; [done|].
    destruct H as (m & E & L). exists m. split_and!; try done.
    apply init_run in E as (_ & -> & _). unfold expected_handlers.
    cbn [opt_truthy truthy]. by rewrite app_nil_r.
Qed.

(** On a file system where nothing can be created, an empty [log_dir]
    still constructs, and [makedirs] is never called. *)
Lemma empty_arguments_count_as_absent_witness :
  ∃ m h,
    __init__ posix "svc" (Some "INFO") (Some "") (Some "") readonly_fs []
    = inr (m, readonly_fs, h)
    ∧ handler_names m h = Some ["console"]
    ∧ makedirs_calls readonly_fs = [].
Proof.
  destruct (proj1 (empty_arguments_count_as_absent posix "svc" (Some "INFO")
                     (Some "") None readonly_fs []))
    as (m & _ & h & E & _ & _ & Hn).
  by exists m, h.
Defined.

(** C4, counterexample: on the manager [svc], reading [config] changes
    the heap (the [handlers] entry of the internal dict is redirected), a
    second read after [add_logger] returns the very same object, and the
    value returned first shows the route that was added after it was
    returned. *)
Lemma config_read_writes_and_aliases :
  reachable svc svc_heap
  ∧ let '(c1, h1) := config svc svc_heap in
    let h2 := (add_logger svc "x" None false h1).2 in
    let '(c2, h3) := config svc h2 in
    h1 ≠ svc_heap
    ∧ (dict_at svc_heap 7 ≫= λ d, dict_get d "handlers") = Some (VRef 5)
    ∧ (dict_at h1 7 ≫= λ d, dict_get d "handlers") = Some (VRef 9)
    ∧ c1 = c2
    ∧ config_route h1 c1 "x" = None
    ∧ config_route h2 c1 "x"
      = Some {| route_propagate := VBool false;
                route_handlers := [VStr "console"; VStr "file"];
                route_level := VStr "INFO" |}.
Proof.
  split; [exact svc_reachable|].
  vm_compute. split_and!; try reflexivity. intros H.
  apply (f_equal (λ h : heap, h !! 7)) in H. vm_compute in H. discriminate H.
Qed.

Lemma config_returns_live_dict_witness :
  (config svc svc_heap).1 = VRef 7
  ∧ config svc (config svc svc_heap).2 = (VRef 7, (config svc svc_heap).2).
Proof.
  pose proof (config_returns_live_dict svc svc_heap svc_reachable)
    as (H1 & _ & H2 & _).
  split; [exact H1|exact H2].
Defined.

Lemma add_logger_twice_last_wins_witness :
  logger_route svc
    (add_logger svc "x" (Some "DEBUG") true
       (add_logger svc "x" None false svc_heap).2).2 "x"
  = Some {| route_propagate := VBool true;
            route_handlers := [VStr "console"; VStr "file"];
            route_level := VStr "DEBUG" |}.
Proof.
  destruct (add_logger_twice_last_wins svc svc_heap "x" None false
              (Some "DEBUG") true svc_reachable)
    as (names & ld & Hn & _ & _ & Hr & _).
  vm_compute in Hn. injection Hn as <-. exact Hr.
Defined.

Lemma add_logger_snapshots_handler_names_witness :
  logger_route svc
    (_add_cloudwatch_handler "svc" (Some "grp") 9 "full"
       (add_logger svc "x" None false svc_heap).2).2 "x"
  = Some {| route_propagate := VBool false;
            route_handlers := [VStr "console"; VStr "file"];
            route_level := VStr "INFO" |}
  ∧ handler_names svc
      (_add_cloudwatch_handler "svc" (Some "grp") 9 "full"
         (add_logger svc "x" None false svc_heap).2).2
    = Some ["console"; "file"; "cloudwatch"].
Proof.
  destruct (add_logger_snapshots_handler_names svc svc_heap "x" None false
              svc_reachable)
    as (names & Hn & Hr & _ & _ & Hcw).
  vm_compute in Hn. injection Hn as <-.
  destruct (Hcw "svc" (Some "grp") "full") as [Hr' Hn'].
  split; [by rewrite Hr in Hr'|exact Hn'].
Defined.

Lemma config_cross_references_witness :
  let h := after_calls svc [AddLogger "x" None false; GetConfig;
                            AddLogger "y" (Some "DEBUG") true] svc_heap in
  ∃ cv, config_view (config svc h).2 (config svc h).1 = Some cv
        ∧ cross_references_hold (config svc h).2 cv.
Proof.
  intros h. apply (config_cross_references svc h).
  apply reachable_after_calls, svc_reachable.
Defined.


End ManagerSpec.

(** ** Further properties of the request-logging middleware *)

Module MiddlewareMore.
Import PyStr PyStrFacts Middleware RequestScenarios MiddlewareSpec Observations.

Lemma rstrip_cons_nonspace c s :
  isspace c = false → rstrip (String c s) = String c (rstrip s).
Proof. intros Hc. cbn [rstrip]. rewrite Hc. by destruct (rstrip s). Qed.

Lemma rstrip_idemp s : rstrip (rstrip s) = rstrip s.
Proof.
  induction s as [|c s IH]; [done|]. cbn [rstrip].
  destruct (rstrip s) as [|x r] eqn:E.
  - destruct (isspace c) eqn:Hc; [done|]. cbn [rstrip]. by rewrite Hc.
  - cbn [rstrip]. cbn [rstrip] in IH. by rewrite IH.
Qed.

Lemma lstrip_head s :
  lstrip s = "" ∨ ∃ c t, lstrip s = String c t ∧ isspace c = false.
Proof.
  induction s as [|c s IH]; [by left|]. cbn [lstrip].
  destruct (isspace c) eqn:Hc; [done|]. right. by exists c, s.
Qed.

Lemma strip_idemp s : strip (strip s) = strip s.
Proof.
  unfold strip. destruct (lstrip_head s) as [->|(c & t & -> & Hc)]; [done|].
  rewrite rstrip_cons_nonspace by done. cbn [lstrip]. rewrite Hc.
  by rewrite rstrip_cons_nonspace, rstrip_idemp.
Qed.

Lemma has_char_lstrip c s : has_char c (lstrip s) = true → has_char c s = true.
Proof.
  induction s as [|x s IH]; [done|]. cbn [lstrip has_char].
  destruct (isspace x); [|done]. intros ->%IH. apply orb_true_r.
Qed.

Lemma has_char_rstrip c s : has_char c (rstrip s) = true → has_char c s = true.
Proof.
  induction s as [|x s IH]; [done|]. cbn [rstrip].
  destruct (rstrip s) as [|y r].
  - destruct (isspace x); [done|]. cbn [has_char].
    rewrite orb_false_r. by intros ->.
  - cbn [has_char] in *. intros [->|H]%orb_true_iff; [done|].
    rewrite IH by done. apply orb_true_r.
Qed.

Lemma has_char_strip c s : has_char c s = false → has_char c (strip s) = false.
Proof.
  intros Hs. destruct (has_char c (strip s)) eqn:E; [|done].
  apply has_char_rstrip, has_char_lstrip in E. congruence.
Qed.

Lemma has_char_before_first c s : has_char c (before_first c s) = false.
Proof.
  induction s as [|x s IH]; [done|]. cbn [before_first].
  destruct (Ascii.eqb x c) eqn:E; [done|]. cbn [has_char]. by rewrite E.
Qed.

Lemma before_first_app c a rest :
  has_char c a = false → before_first c (a ++ String c rest) = a.
Proof.
  induction a as [|x a IH]; cbn [has_char].
  - intros _. change ("" ++ String c rest) with (String c rest).
    cbn [before_first]. by rewrite Ascii.eqb_refl.
  - intros [Hx Ha]%orb_false_iff. rewrite append_cons. cbn [before_first].
    rewrite Hx. by rewrite IH.
Qed.

Lemma before_first_none c s : has_char c s = false → before_first c s = s.
Proof.
  induction s as [|x s IH]; [done|]. cbn [has_char before_first].
  intros [Hx Hs]%orb_false_iff. rewrite Hx. by rewrite IH.
Qed.

(** X1: the address [get_client_ip] returns never has white space at
    either end: stripping it again changes nothing. *)
Theorem get_client_ip_is_stripped request default :
  strip (get_client_ip request default) = get_client_ip request default.
Proof. unfold get_client_ip. apply strip_idemp. Qed.

(** X2: for a forwarded header that is not blank, [get_client_ip] returns
    the trimmed text in front of the first comma, whatever follows the comma
    and whatever the remote address and the default are; a header without
    comma is returned trimmed as a whole. *)
Theorem get_client_ip_first_hop request default h :
  META request !! "HTTP_X_FORWARDED_FOR" = Some h →
  strip h ≠ "" →
  (∀ a rest, h = a ++ String comma rest → has_char comma a = false →
             get_client_ip request default = strip a)
  ∧ (has_char comma h = false → get_client_ip request default = strip h).
Proof.
  intros Hh Hne. rewrite get_client_ip_resolution.
  unfold ResolveClientIP_trimmed. rewrite Hh.
  apply truthy_true in Hne. rewrite Hne. split.
  - intros a rest -> Ha. by rewrite before_first_app.
  - intros Hc. by rewrite before_first_none.
Qed.

Lemma get_client_ip_first_hop_witness :
  get_client_ip two_hops "-" = "1.2.3.4".
Proof.
  apply (proj1 (get_client_ip_first_hop two_hops "-" "1.2.3.4, 5.6.7.8"
                  eq_refl ltac:(by vm_compute)) "1.2.3.4" " 5.6.7.8");
    reflexivity.
Defined.

(** X3: an address taken from a forwarded header that is not blank
    contains no comma. *)
Theorem get_client_ip_has_no_comma request default h :
  META request !! "HTTP_X_FORWARDED_FOR" = Some h →
  strip h ≠ "" →
  has_char comma (get_client_ip request default) = false.
Proof.
  intros Hh Hne. rewrite get_client_ip_resolution.
  unfold ResolveClientIP_trimmed. rewrite Hh.
  apply truthy_true in Hne. rewrite Hne.
  apply has_char_strip, has_char_before_first.
Qed.

Lemma get_client_ip_has_no_comma_witness :
  has_char comma (get_client_ip two_hops "-") = false.
Proof.
  apply (get_client_ip_has_no_comma two_hops "-" "1.2.3.4, 5.6.7.8");
    [reflexivity|by vm_compute].
Defined.

(** X4: a user object whose [id] is [None], [0] or the empty string is
    logged like a request without user: the line is the one for
    [user = None], with [-] in the user field. *)
Theorem falsy_user_id_logged_as_anonymous request response u :
  user request = Attr (Some u) →
  id_truthy (id u) = false →
  log_line request response = log_line (with_user request (Attr None)) response
  ∧ is_Some (log_line request response)
  ∧ ∃ fields, log_fields request response = Some fields
              ∧ fields !! 3%nat = Some "-".
Proof.
  intros Hu Hid.
  assert (_get_user_id request = Some (IdStr "-")) as Hg
    by (unfold _get_user_id; by rewrite Hu, Hid).
  unfold log_line, log_fields, get_client_ip, _get_value. rewrite Hg.
  cbn [mbind option_bind fmap option_fmap option_map].
  split; [done|]. split; [by eexists|]. by eexists.
Qed.

Lemma falsy_user_id_logged_as_anonymous_witness :
  ∃ fields, log_fields user_zero None = Some fields
            ∧ fields !! 3%nat = Some "-".
Proof.
  exact (proj2 (proj2 (falsy_user_id_logged_as_anonymous user_zero None
                         {| id := IdInt 0 |} eq_refl eq_refl))).
Defined.

Lemma log_line_text request response user_id :
  _get_user_id request = Some user_id →
  log_line request response
  = Some (line_text request user_id (default 500%Z (status_code <$> response))).
Proof.
  intros Hg. unfold log_line, log_fields, line_text, _get_value,
    NO_VALUE_MARKER. rewrite Hg.
  cbn [mbind option_bind fmap option_fmap option_map join]. f_equal.
  destruct response as [[c]|];
    cbn [fmap option_fmap option_map default status_code];
    by rewrite !append_assoc.
Qed.

Lemma get_user_id_Some request u :
  user request = Attr u → ∃ user_id, _get_user_id request = Some user_id.
Proof. intros Hu. unfold _get_user_id. rewrite Hu. by eexists. Qed.

(** X5: on a request that has a [user] attribute, an interceptor wrapped
    around an interceptor logs the same line twice, after everything the
    inner pipeline logged, and hands on the pipeline's response or
    exception. *)
Theorem nested_interceptors_log_twice {E}
    (get_response : Request → M (option Response))
    (request : Request) (u : option User) (log log1 : list string)
    (outcome : exception E + option Response) :
  user request = Attr u →
  get_response request log = (log1, outcome) →
  ∃ user_id,
    _get_user_id request = Some user_id
    ∧ let line :=
        line_text request user_id
          (default 500%Z (status_code <$> seen_response outcome)) in
      __call__ (__call__ get_response) request log
      = ((log1 ++ [line; line])%list, outcome).
Proof.
  intros Hu H. destruct (get_user_id_Some request u Hu) as [user_id Hg].
  pose proof (log_line_text request (seen_response outcome) user_id Hg) as Hl.
  exists user_id. split; [exact Hg|]. intros line.
  unfold __call__ at 1. unfold __call__. rewrite H.
  unfold _log_request, logger_info.
  destruct outcome as [e|r]; cbn [seen_response] in *; rewrite Hl;
    cbn; rewrite ?Hl; by rewrite <- app_assoc.
Qed.

Lemma nested_interceptors_log_twice_witness :
  let line := "10.0.0.5 10.0.0.5,- " ++ dquote ++ "GET /health" ++ dquote
              ++ " - 500 " ++ dquote ++ "-" ++ dquote in
  __call__ (__call__ failing_pipeline) health_check []
  = (["inner"; line; line], inl (Raised "boom")).
Proof.
  destruct (nested_interceptors_log_twice failing_pipeline health_check None
              [] ["inner"] (inl (Raised "boom")) eq_refl eq_refl)
    as (user_id & Hg & Hcall).
  injection Hg as <-. exact Hcall.
Defined.

(** X14: on a request that has a [user] attribute, [__call__] hands
    exactly one message to the logger, after everything the inner pipeline
    logged, and returns the pipeline's response or re-raises its exception;
    when the pipeline raised or returned [None], the message carries the
    status 500 between the user id and the quoted user agent. *)
Theorem call_logs_exactly_once {E}
    (get_response : Request → M (option Response))
    (request : Request) (u : option User) (log log1 : list string)
    (outcome : exception E + option Response) :
  user request = Attr u →
  get_response request log = (log1, outcome) →
  ∃ user_id,
    _get_user_id request = Some user_id
    ∧ __call__ get_response request log
      = ((log1 ++ [line_text request user_id
                     (default 500%Z (status_code <$> seen_response outcome))])%list,
         outcome)
    ∧ (seen_response outcome = None →
       __call__ get_response request log
       = ((log1 ++ [line_text request user_id 500])%list, outcome)).
Proof.
  intros Hu H. destruct (get_user_id_Some request u Hu) as [user_id Hg].
  pose proof (log_line_text request (seen_response outcome) user_id Hg) as Hl.
  exists user_id. split; [exact Hg|].
  assert (__call__ get_response request log
          = ((log1 ++ [line_text request user_id
                 (default 500%Z (status_code <$> seen_response outcome))])%list,
             outcome)) as Hcall.
  { unfold __call__, _log_request, logger_info. rewrite H.
    destruct outcome as [e|r]; cbn [seen_response] in *; by rewrite Hl. }
  split; [exact Hcall|]. intros Hnone. rewrite Hcall. by rewrite Hnone.
Qed.

Lemma call_logs_exactly_once_witness :
  __call__ failing_pipeline health_check ["earlier"]
  = (["earlier"; "inner";
      "10.0.0.5 10.0.0.5,- " ++ dquote ++ "GET /health" ++ dquote
      ++ " - 500 " ++ dquote ++ "-" ++ dquote],
     inl (Raised "boom")).
Proof.
  destruct (call_logs_exactly_once failing_pipeline health_check None
              ["earlier"] ["earlier"; "inner"] (inl (Raised "boom"))
              eq_refl eq_refl) as (user_id & Hg & _ & Hcall).
  injection Hg as <-. exact (Hcall eq_refl).
Defined.

End MiddlewareMore.

(** ** Further properties of the configuration builder *)

Module ManagerMore.
Import PyStr Heap Manager HeapFacts Views Invariant ManagerFacts Scenarios.
Import PyStrFacts ManagerSpec ManagerObservations.

Local Arguments alloc : simpl never.

Lemma do_call_frame m h c : frame m h (do_call m h c).
Proof.
  intros l o Hc Hl Hlo. destruct c as [logger level propagate|]; cbn [do_call].
  - unfold add_logger, keys_at, mbind, St_bind, alloc.
    rewrite setitem_lookup_ne by done.
    by do 2 apply lookup_app_l_Some.
  - unfold config, mbind, St_bind, mret, St_ret.
    destruct (setitem (_config m) "handlers" _ h) as [[] h1] eqn:E1.
    destruct (setitem (_config m) "loggers" _ h1) as [[] h2] eqn:E2.
    cbn [snd].
    replace h2 with (setitem (_config m) "loggers" (VRef (_loggers m)) h1).2
      by (by rewrite E2).
    rewrite setitem_lookup_ne by done.
    replace h1 with (setitem (_config m) "handlers" (VRef (_handlers m)) h).2
      by (by rewrite E1).
    by rewrite setitem_lookup_ne.
Qed.

Lemma after_calls_frame m cs h : frame m h (after_calls m cs h).
Proof.
  revert h. induction cs as [|c cs IH]; intros h; [by intros l o|].
  intros l o Hc Hl Hlo. cbn [after_calls foldl].
  apply IH; [done..|]. by apply do_call_frame.
Qed.

Lemma setitem_length l k v (h : heap) : length (setitem l k v h).2 = length h.
Proof.
  unfold setitem. destruct (h !! l) as [[d|xs]|]; [|done..].
  cbn [snd]. apply length_insert.
Qed.

Lemma do_call_length m (h : heap) c :
  (length h ≤ length (do_call m h c))%nat.
Proof.
  destruct c as [logger level propagate|]; cbn [do_call].
  - unfold add_logger, keys_at, mbind, St_bind, alloc.
    rewrite setitem_length, !length_app. lia.
  - unfold config, mbind, St_bind, mret, St_ret.
    destruct (setitem (_config m) "handlers" _ h) as [[] h1] eqn:E1.
    destruct (setitem (_config m) "loggers" _ h1) as [[] h2] eqn:E2.
    cbn [snd].
    replace h2 with (setitem (_config m) "loggers" (VRef (_loggers m)) h1).2
      by (by rewrite E2).
    replace h1 with (setitem (_config m) "handlers" (VRef (_handlers m)) h).2
      by (by rewrite E1).
    by rewrite !setitem_length.
Qed.

(** X6: calls on a manager write to two objects only, its configuration
    dict and its route mapping: every other object of the heap, whatever the
    heap holds, is after any calls what it was before, and no object is
    removed. *)
Theorem calls_touch_only_config_and_loggers m cs h l o :
  h !! l = Some o →
  l ≠ _config m → l ≠ _loggers m →
  after_calls m cs h !! l = Some o
  ∧ (length h ≤ length (after_calls m cs h))%nat.
Proof.
  intros Hlo Hc Hl. split; [by apply after_calls_frame|].
  clear. revert h. induction cs as [|c cs IH]; intros h; [done|].
  cbn [after_calls foldl]. etrans; [apply (do_call_length m h c)|apply IH].
Qed.

Lemma route_at_frame m h h' r hl p names lv :
  frame m h h' → private m r → private m hl →
  route_at h r hl p names lv → route_at h' r hl p names lv.
Proof.
  intros Fr Hr Hhl [H1 H2]. split; (apply Fr; [..|done]).
  - apply Hr.
  - apply Hr.
  - apply Hhl.
  - apply Hhl.
Qed.

(** A route found in a well-formed heap reads the same in any heap that
    keeps the objects outside the configuration dict and the route mapping. *)
Lemma logger_route_frame m h h' hd ld ld' cd cd' fl fd logger :
  wf_with m h hd ld cd fl fd → wf_with m h' hd ld' cd' fl fd →
  frame m h h' → dict_get ld' logger = dict_get ld logger →
  logger_route m h' logger = logger_route m h logger.
Proof.
  intros W W' Fr Hg. unfold logger_route, dict_at.
  rewrite (wf_loggers _ _ _ _ _ _ _ W), (wf_loggers _ _ _ _ _ _ _ W').
  cbn [mbind option_bind]. rewrite Hg.
  destruct (dict_get ld logger) as [v|] eqn:E; [|done]. cbn [mbind option_bind].
  apply dict_get_Some in E.
  apply (proj1 (Forall_forall _ _) (wf_loggers_ok _ _ _ _ _ _ _ W)) in E.
  cbn [snd] in E. destruct E as (r & hl & p & lv & -> & Hr & Hhl & H1 & H2).
  assert (route_at h r hl p (keys hd) lv) as Hat by done.
  rewrite (route_at_view _ _ _ _ _ _ Hat).
  apply (route_at_view _ _ hl). by eapply route_at_frame.
Qed.

(** One call, on a well-formed heap. *)
Lemma do_call_state m h hd ld cd fl fd c :
  wf_with m h hd ld cd fl fd →
  ∃ ld' cd',
    wf_with m (do_call m h c) hd ld' cd' fl fd
    ∧ keys ld' = add_name (keys ld) c
    ∧ (∀ k, k ≠ "handlers" → k ≠ "loggers" → dict_get cd' k = dict_get cd k)
    ∧ ∀ logger,
        logger_route m (do_call m h c) logger
        = match last_call [c] logger with
          | Some args => Some (route_for m (keys hd) args)
          | None => logger_route m h logger
          end.
Proof.
  intros W. pose proof (do_call_frame m h c) as Fr.
  destruct c as [l level propagate|]; cbn [do_call last_call] in *.
  - pose proof (add_logger_wf _ _ _ _ _ _ _ l level propagate W) as W'.
    destruct (add_logger_route_at _ _ _ _ _ _ _ l level propagate W) as [Hat Hd].
    eexists _, cd. split; [exact W'|]. split; [apply keys_dict_set|].
    split; [done|]. intros logger.
    destruct (String.eqb l logger) eqn:E.
    + apply String.eqb_eq in E as <-.
      eapply logger_route_at; [exact Hd|apply dict_get_set_eq|exact Hat].
    + apply String.eqb_neq in E.
      eapply logger_route_frame; [exact W|exact W'|exact Fr|].
      by apply dict_get_set_ne.
  - pose proof (config_wf _ _ _ _ _ _ _ W) as W'.
    eexists ld, _. split; [exact W'|]. split; [done|]. split.
    + intros k Hk1 Hk2. unfold refreshed. by rewrite !dict_get_set_ne.
    + intros logger. by eapply logger_route_frame.
Qed.

Lemma last_call_cons c cs logger :
  last_call (c :: cs) logger
  = match last_call cs logger with
    | Some args => Some args
    | None => last_call [c] logger
    end.
Proof. cbn [last_call]. by destruct (last_call cs logger). Qed.

(** Any calls, on a well-formed heap. *)
Lemma calls_state m cs : ∀ h ld cd hd fl fd,
  wf_with m h hd ld cd fl fd →
  ∃ ld' cd',
    wf_with m (after_calls m cs h) hd ld' cd' fl fd
    ∧ keys ld' = foldl add_name (keys ld) cs
    ∧ (∀ k, k ≠ "handlers" → k ≠ "loggers" → dict_get cd' k = dict_get cd k)
    ∧ ∀ logger,
        logger_route m (after_calls m cs h) logger
        = match last_call cs logger with
          | Some args => Some (route_for m (keys hd) args)
          | None => logger_route m h logger
          end.
Proof.
  induction cs as [|c cs IH]; intros h ld cd hd fl fd W.
  - by exists ld, cd.
  - destruct (do_call_state _ _ _ _ _ _ _ c W) as (ld1 & cd1 & W1 & K1 & G1 & R1).
    destruct (IH _ _ _ _ _ _ W1) as (ld2 & cd2 & W2 & K2 & G2 & R2).
    exists ld2, cd2. split; [exact W2|]. split; [by rewrite K2, K1|]. split.
    + intros k Hk1 Hk2. by rewrite G2, G1.
    + intros logger. cbn [after_calls foldl] in *. rewrite R2, last_call_cons.
      destruct (last_call cs logger); [done|]. apply R1.
Qed.

(** The state right after construction. *)
Lemma init_state {FS Exn} (os : OS FS Exn) app lvl grp dir fs h0 m fs' h :
  __init__ os app lvl grp dir fs h0 = inr (m, fs', h) →
  ∃ hd cd fl fd,
    wf_with m h hd [] cd fl fd ∧ keys hd = expected_handlers grp dir.
Proof.
  intros (W & Hn & Hl)%init_run. destruct W as (hd & ld & cd & fl & fd & W).
  unfold handler_names, dict_at in *.
  rewrite (wf_handlers _ _ _ _ _ _ _ W) in Hn.
  rewrite (wf_loggers _ _ _ _ _ _ _ W) in Hl.
  injection Hn as Hn. injection Hl as ->. by exists hd, cd, fl, fd.
Qed.

(** X7: after construction and any calls, the route mapping holds the names
    given to [add_logger], each once, in the order in which they first came;
    the route of a name is the one its last [add_logger] call stored: that
    call's [propagate], its level or the default level, and the handler
    names of the constructor; a name never given has no route. *)
Theorem routes_follow_last_call {FS Exn} (os : OS FS Exn) app lvl grp dir
    fs h0 m fs' h1 cs :
  __init__ os app lvl grp dir fs h0 = inr (m, fs', h1) →
  let h := after_calls m cs h1 in
  logger_names m h = Some (added_names cs)
  ∧ NoDup (added_names cs)
  ∧ ∀ logger,
      logger_route m h logger
      = route_for m (expected_handlers grp dir) <$> last_call cs logger.
Proof.
  intros (hd & cd & fl & fd & W & Hk)%init_state h.
  destruct (calls_state m cs _ _ _ _ _ _ W) as (ld' & cd' & W' & K & _ & R).
  fold h in W', R. split; [|split].
  - unfold logger_names, dict_at. rewrite (wf_loggers _ _ _ _ _ _ _ W').
    cbn. by rewrite K.
  - unfold added_names. change [] with (keys (@nil (string * val))) at 1.
    rewrite <- K. apply (wf_loggers_nodup _ _ _ _ _ _ _ W').
  - intros logger. rewrite R, Hk. destruct (last_call cs logger); [done|].
    unfold logger_route, dict_at. by rewrite (wf_loggers _ _ _ _ _ _ _ W).
Qed.

(** X8: neither [add_logger] nor reading [config] changes the handler
    mapping: after any calls it is the dict the constructor left, with the
    names the constructor gave it. *)
Theorem handler_names_fixed {FS Exn} (os : OS FS Exn) app lvl grp dir
    fs h0 m fs' h1 cs :
  __init__ os app lvl grp dir fs h0 = inr (m, fs', h1) →
  handler_names m (after_calls m cs h1) = Some (expected_handlers grp dir)
  ∧ dict_at (after_calls m cs h1) (_handlers m) = dict_at h1 (_handlers m).
Proof.
  intros (hd & cd & fl & fd & W & Hk)%init_state.
  destruct (calls_state m cs _ _ _ _ _ _ W) as (ld' & cd' & W' & _).
  unfold handler_names, dict_at.
  rewrite (wf_handlers _ _ _ _ _ _ _ W'), (wf_handlers _ _ _ _ _ _ _ W).
  cbn. by rewrite Hk.
Qed.

(** X9: [add_logger] leaves the routes of all other names as they are, and
    reading [config] leaves every route as it is. *)
Theorem other_routes_untouched m h logger level propagate other :
  reachable m h →
  (other ≠ logger →
   logger_route m (add_logger m logger level propagate h).2 other
   = logger_route m h other)
  ∧ logger_route m (config m h).2 other = logger_route m h other.
Proof.
  intros (hd & ld & cd & fl & fd & W)%reachable_wf. split.
  - intros Hne.
    destruct (do_call_state _ _ _ _ _ _ _ (AddLogger logger level propagate) W)
      as (_ & _ & _ & _ & _ & R).
    specialize (R other). cbn [do_call last_call] in R. rewrite R.
    assert (String.eqb logger other = false) as ->; [|done].
    apply String.eqb_neq. congruence.
  - destruct (do_call_state _ _ _ _ _ _ _ GetConfig W)
      as (_ & _ & _ & _ & _ & R).
    exact (R other).
Qed.

Lemma lookup_offset_Some (h t : heap) i o :
  t !! i = Some o → (h ++ t)%list !! (length h + i) = Some o.
Proof. intros <-. apply lookup_offset. Qed.

(** The objects the constructor creates. *)
Lemma init_contents {FS Exn} (os : OS FS Exn) app lvl grp dir fs h0 m fs' h :
  __init__ os app lvl grp dir fs h0 = inr (m, fs', h) →
  ∃ hd cd fl fd,
    wf_with m h hd [] cd fl fd
    ∧ deref_entries h hd = Some (expected_handler_table os app grp dir)
    ∧ deref_entries h fd = Some formatter_templates
    ∧ refs_kept m fd
    ∧ dict_get cd "version" = Some (VInt 1)
    ∧ dict_get cd "disable_existing_loggers" = Some (VBool false).
Proof.
  intros H. pose proof (init_state _ _ _ _ _ _ _ _ _ _ H)
    as (hd & cd & fl & fd & W & _).
  exists hd, cd, fl, fd. split; [exact W|].
  pose proof (wf_handlers _ _ _ _ _ _ _ W) as Hh.
  pose proof (wf_config _ _ _ _ _ _ _ W) as Hc.
  pose proof (wf_formatters_ref _ _ _ _ _ _ _ W) as Hr.
  pose proof (wf_formatters _ _ _ _ _ _ _ W) as Hf.
  clear W.
  rewrite <- (app_nil_r h0) in H.
  unfold __init__, new_config, new_handlers in H.
  unfold mbind, St_bind in H.
  rewrite !alloc_app in H. cbn [length List.app Nat.add] in H.
  unfold expected_handler_table, refs_kept.
  destruct dir as [d|]; cbn [opt_truthy]; [destruct (truthy d)|];
    [unfold _add_file_handler in H;
     destruct (negb (path_exists os fs d));
     [destruct (makedirs os fs d); [done|]|];
     unfold mbind, St_bind in H;
     rewrite alloc_app, setitem_app in H; simpl in H
    |..];
    (destruct (opt_truthy grp);
     [unfold _add_cloudwatch_handler, mbind, St_bind in H;
      rewrite alloc_app, setitem_app in H; simpl in H|];
     unfold alloc in H; rewrite ?length_app, <- ?app_assoc in H; simpl in H;
     injection H as <- <- <-; cbn [_config _loggers _handlers] in *;
     erewrite lookup_offset_Some in Hh by reflexivity; injection Hh as <-;
     erewrite lookup_offset_Some in Hc by reflexivity; injection Hc as <-;
     injection Hr as <-;
     erewrite lookup_offset_Some in Hf by reflexivity; injection Hf as <-;
     cbn [deref_entries deref_dict]; unfold dict_at;
     rewrite !lookup_offset;
     (split; [reflexivity|]); (split; [reflexivity|]);
     (split; [repeat (constructor; [intros x [= <-]; lia|]); constructor|]);
     split; reflexivity).
Qed.

Lemma deref_entries_frame m h h' d t :
  frame m h h' → refs_kept m d →
  deref_entries h d = Some t → deref_entries h' d = Some t.
Proof.
  intros Fr. revert t. induction d as [|[k v] d IH]; intros t Hk; [done|].
  apply Forall_cons in Hk as [Hv Hk]. cbn [deref_entries snd] in *.
  destruct (deref_dict h v) as [x|] eqn:Ev; [|done].
  destruct (deref_entries h d) as [t'|] eqn:Ed; [|done].
  intros [= <-]. rewrite (IH t') by done.
  destruct v as [| | | |l]; try done. cbn [deref_dict] in *.
  unfold dict_at in *. destruct (h !! l) as [[dl|]|] eqn:El; try done.
  injection Ev as ->. destruct (Hv l eq_refl) as [? ?].
  by rewrite (Fr l (ODict x)).
Qed.

Lemma handlers_refs_kept m h hd :
  Forall (λ kv, handler_ok m h kv.2) hd → refs_kept m hd.
Proof.
  intros H. eapply Forall_impl; [exact H|].
  intros [k v] (x & d & f & Hv & (? & ? & ?) & _) y. cbn [snd] in *.
  subst v. by intros [= <-].
Qed.

(** The configuration read after construction and the calls [cs]. *)
Lemma config_after_calls {FS Exn} (os : OS FS Exn) app lvl grp dir
    fs h0 m fs' h1 cs :
  __init__ os app lvl grp dir fs h0 = inr (m, fs', h1) →
  let h := after_calls m cs h1 in
  ∃ hd ld cd fd,
    (config m h).1 = VRef (_config m)
    ∧ config_view (config m h).2 (VRef (_config m))
      = Some {| cfg_formatters := fd; cfg_handlers := hd; cfg_loggers := ld |}
    ∧ deref_dict (config m h).2 (VRef (_config m)) = Some cd
    ∧ dict_get cd "version" = Some (VInt 1)
    ∧ dict_get cd "disable_existing_loggers" = Some (VBool false)
    ∧ deref_entries (config m h).2 hd
      = Some (expected_handler_table os app grp dir)
    ∧ deref_entries (config m h).2 fd = Some formatter_templates.
Proof.
  intros (hd & cd & fl & fd & W & Hhd & Hfd & Hk & Hv & Hd)%init_contents h.
  destruct (calls_state m cs _ _ _ _ _ _ W) as (ld' & cd' & W' & _ & G & _).
  fold h in W'. pose proof (config_wf _ _ _ _ _ _ _ W') as W''.
  assert (frame m h1 (config m h).2) as Fr.
  { intros l o Hc Hl Hlo. apply (do_call_frame m h GetConfig); [done..|].
    by apply after_calls_frame. }
  exists hd, ld', (refreshed m cd'), fd. split_and!.
  - by rewrite (config_run _ _ _ _ _ _ _ W').
  - eapply wf_config_view;
      [exact W''|apply refreshed_handlers|apply refreshed_loggers].
  - cbn [deref_dict]. unfold dict_at. by rewrite (wf_config _ _ _ _ _ _ _ W'').
  - unfold refreshed. rewrite !dict_get_set_ne by discriminate.
    rewrite G by discriminate. done.
  - unfold refreshed. rewrite !dict_get_set_ne by discriminate.
    rewrite G by discriminate. done.
  - eapply deref_entries_frame; [exact Fr| |exact Hhd].
    eapply handlers_refs_kept, (wf_handlers_ok _ _ _ _ _ _ _ W).
  - eapply deref_entries_frame; [exact Fr|exact Hk|exact Hfd].
Qed.

(** X10: whatever calls were made, the configuration read from a manager
    has the four formatters [default], [basic], [full] and [db] with the
    templates of the constructor, [version] 1 and
    [disable_existing_loggers] [False]. *)
Theorem config_formatters_and_settings_fixed {FS Exn} (os : OS FS Exn)
    app lvl grp dir fs h0 m fs' h1 cs :
  __init__ os app lvl grp dir fs h0 = inr (m, fs', h1) →
  let '(c, h) := config m (after_calls m cs h1) in
  formatter_table h c = Some formatter_templates
  ∧ config_setting h c "version" = Some (VInt 1)
  ∧ config_setting h c "disable_existing_loggers" = Some (VBool false).
Proof.
  intros Hinit.
  destruct (config_after_calls os app lvl grp dir fs h0 m fs' h1 cs Hinit)
    as (hd & ld & cd & fd & Hc & Hview & Hcd & Hv & Hd & _ & Hf).
  destruct (config m (after_calls m cs h1)) as [c h]. cbn [fst snd] in *.
  subst c. unfold formatter_table, config_setting.
  rewrite Hview, Hcd. cbn [mbind option_bind cfg_formatters]. done.
Qed.

(** X11: whatever calls were made, the handlers of the configuration read
    from a manager are those of the constructor: [console] on the [basic]
    formatter; for a non-empty [log_dir] a [file] handler on the [full]
    formatter, rotating at midnight, writing to
    [os.path.join(log_dir, app_name + '.log')]; for a non-empty [log_group]
    a [cloudwatch] handler on the [full] formatter for that group, with
    stream name [app_name + '-{strftime:%Y-%m-%d}'], queues on and group
    creation off. *)
Theorem config_handlers_fixed {FS Exn} (os : OS FS Exn)
    app lvl grp dir fs h0 m fs' h1 cs :
  __init__ os app lvl grp dir fs h0 = inr (m, fs', h1) →
  let '(c, h) := config m (after_calls m cs h1) in
  handler_table h c = Some (expected_handler_table os app grp dir).
Proof.
  intros Hinit.
  destruct (config_after_calls os app lvl grp dir fs h0 m fs' h1 cs Hinit)
    as (hd & ld & cd & fd & Hc & Hview & _ & _ & _ & Hh & _).
  destruct (config m (after_calls m cs h1)) as [c h]. cbn [fst snd] in *.
  subst c. unfold handler_table. rewrite Hview.
  cbn [mbind option_bind cfg_handlers]. done.
Qed.

(** X12: the constructor touches the file system only for a non-empty
    [log_dir] that does not exist: it then calls [makedirs], keeps the
    state [makedirs] returns, and lets an exception of [makedirs] escape;
    in every other case it succeeds and leaves the file system as it is. *)
Theorem init_file_system {FS Exn} (os : OS FS Exn) app lvl grp dir fs h0 :
  (opt_truthy dir = false →
   ∃ m h, __init__ os app lvl grp dir fs h0 = inr (m, fs, h))
  ∧ (∀ d, dir = Some d → d ≠ "" → path_exists os fs d = true →
       ∃ m h, __init__ os app lvl grp dir fs h0 = inr (m, fs, h))
  ∧ (∀ d fs1, dir = Some d → d ≠ "" → path_exists os fs d = false →
       makedirs os fs d = inr fs1 →
       ∃ m h, __init__ os app lvl grp dir fs h0 = inr (m, fs1, h))
  ∧ (∀ d e, dir = Some d → d ≠ "" → path_exists os fs d = false →
       makedirs os fs d = inl e →
       __init__ os app lvl grp dir fs h0 = inl e).
Proof.
  pose proof (init_outcome os app lvl grp dir fs h0) as Hout.
  assert (∀ fs1, dir_outcome os dir fs = inr fs1 →
            ∃ m h, __init__ os app lvl grp dir fs h0 = inr (m, fs1, h)) as Hok.
  { intros fs1 E.
    destruct (__init__ os app lvl grp dir fs h0) as [e|[[m fs2] h]].
    - congruence.
    - destruct Hout as [Hout _]. exists m, h. congruence. }
  split_and!.
  - intros Hf. apply Hok. unfold dir_outcome.
    destruct dir as [d|]; [|done]. cbn [opt_truthy] in Hf. by rewrite Hf.
  - intros d -> Hd He. apply Hok. cbn [dir_outcome].
    apply truthy_true in Hd. by rewrite Hd, He.
  - intros d fs1 -> Hd He Hm. apply Hok. cbn [dir_outcome].
    apply truthy_true in Hd. by rewrite Hd, He.
  - intros d e -> Hd He Hm. cbn [dir_outcome] in Hout.
    apply truthy_true in Hd. rewrite Hd, He, Hm in Hout.
    destruct (__init__ os app lvl grp (Some d) fs h0) as [e'|[[m fs2] h]].
    + congruence.
    + by destruct Hout.
Qed.

Lemma after_calls_app m cs1 cs2 h :
  after_calls m (cs1 ++ cs2) h = after_calls m cs2 (after_calls m cs1 h).
Proof. apply foldl_app. Qed.

(** [DefaultLogManager] is a [LogManager] with one [add_logger] call for
    each default name and each name of [loggers]. *)
Lemma default_init_calls {FS Exn} (os : OS FS Exn) app lvl grp dir
    loggers fs h0 m fs' h :
  DefaultLogManager__init__ os app lvl grp dir loggers fs h0 = inr (m, fs', h) →
  ∃ h1, __init__ os app lvl grp dir fs h0 = inr (m, fs', h1)
        ∧ h = after_calls m (register <$> requested_loggers loggers) h1.
Proof.
  unfold DefaultLogManager__init__, requested_loggers.
  destruct (__init__ os app lvl grp dir fs h0) as [e|[[m0 fs0] h1]];
    [intros H; discriminate H|].
  pose proof (add_loggers_calls m0 default_loggers h1) as Hd. revert Hd.
  generalize (_add_loggers m0 default_loggers h1).2. intros h2 Hd H.
  assert (m0 = m ∧ fs0 = fs'
          ∧ h = match loggers with
                | Some (l :: ls) => (_add_loggers m0 (l :: ls) h2).2
                | _ => h2
                end) as (-> & -> & ->)
    by (split_and!; congruence).
  clear H. exists h1. split; [reflexivity|].
  rewrite fmap_app, after_calls_app. fold (register) in Hd. rewrite <- Hd.
  destruct loggers as [[|l ls]|].
  - reflexivity.
  - exact (add_loggers_calls m (l :: ls) h2).
  - reflexivity.
Qed.

Lemma last_call_register ls l :
  last_call (register <$> ls) l
  = if decide (l ∈ ls) then Some (None, false) else None.
Proof.
  induction ls as [|x ls IH]; [done|].
  cbn [fmap list_fmap last_call register]. rewrite IH.
  destruct (decide (l ∈ ls)) as [Hin|Hni].
  - by rewrite decide_True by (by right).
  - destruct (String.eqb x l) eqn:E.
    + apply String.eqb_eq in E as ->. by rewrite decide_True by left.
    + apply String.eqb_neq in E. rewrite decide_False; [done|].
      rewrite not_elem_of_cons. split; [congruence|done].
Qed.

Lemma added_names_register ls : ∀ ns,
  ∃ extra, foldl add_name ns (register <$> ls) = (ns ++ extra)%list
           ∧ ∀ l, l ∈ extra ↔ l ∈ ls ∧ l ∉ ns.
Proof.
  induction ls as [|x ls IH]; intros ns.
  - exists []. split; [by rewrite app_nil_r|]. intros l. split.
    + by intros ?%elem_of_nil.
    + by intros [?%elem_of_nil _].
  - cbn [fmap list_fmap foldl add_name register].
    destruct (decide (x ∈ ns)) as [Hin|Hni].
    + destruct (IH ns) as (extra & -> & Hx). exists extra. split; [done|].
      intros l. rewrite Hx, elem_of_cons. split.
      * intros [? ?]. split; [by right|done].
      * intros [[->|?] ?]; [done|by split].
    + destruct (IH (ns ++ [x])%list) as (extra & -> & Hx).
      exists (x :: extra). split; [by rewrite <- app_assoc|].
      intros l. rewrite !elem_of_cons, Hx, not_elem_of_app.
      rewrite list_elem_of_singleton. split.
      * intros [->|(? & ? & ?)]; [split; [by left|done]|split; [by right|done]].
      * intros [[->|?] ?]; [by left|].
        destruct (decide (l = x)) as [->|?]; [by left|right; by split_and!].
Qed.

(** X13: a [DefaultLogManager] has the handlers of a [LogManager] with the
    same arguments and a route for every default logger name and every name
    of [loggers] and for no other name; each route has [propagate] [False],
    the default level and all handler names; the default names come first in
    the route mapping, then the new names of [loggers]. *)
Theorem default_manager_routes {FS Exn} (os : OS FS Exn) app lvl grp dir
    loggers fs h0 m fs' h :
  DefaultLogManager__init__ os app lvl grp dir loggers fs h0 = inr (m, fs', h) →
  handler_names m h = Some (expected_handlers grp dir)
  ∧ (∃ extra,
       logger_names m h = Some (default_loggers ++ extra)%list
       ∧ NoDup (default_loggers ++ extra)
       ∧ ∀ l, l ∈ extra ↔ l ∈ default [] loggers ∧ l ∉ default_loggers)
  ∧ ∀ l,
      logger_route m h l
      = if decide (l ∈ requested_loggers loggers)
        then Some {| route_propagate := VBool false;
                     route_handlers := VStr <$> expected_handlers grp dir;
                     route_level := opt_val lvl |}
        else None.
Proof.
  intros (h1 & Hinit & ->)%default_init_calls.
  pose proof (init_outcome os app lvl grp dir fs h0) as Hout.
  rewrite Hinit in Hout. destruct Hout as (_ & _ & _ & _ & Hlvl).
  destruct (init_state _ _ _ _ _ _ _ _ _ _ Hinit)
    as (hd & cd & fl & fd & W & Hk).
  destruct (calls_state m (register <$> requested_loggers loggers)
              _ _ _ _ _ _ W) as (ld' & cd' & W' & K & _ & R).
  revert W' R.
  generalize (after_calls m (register <$> requested_loggers loggers) h1).
  intros h W' R. split; [|split].
  - unfold handler_names, dict_at. rewrite (wf_handlers _ _ _ _ _ _ _ W').
    cbn [fmap option_fmap option_map]. by rewrite Hk.
  - destruct (added_names_register (default [] loggers) default_loggers)
      as (extra & E & Hx).
    assert (keys ld' = (default_loggers ++ extra)%list) as Ea.
    { rewrite K. unfold requested_loggers. rewrite fmap_app, foldl_app.
      exact E. }
    exists extra. split; [|split; [|exact Hx]].
    + unfold logger_names, dict_at. rewrite (wf_loggers _ _ _ _ _ _ _ W').
      cbn [fmap option_fmap option_map]. by rewrite Ea.
    + rewrite <- Ea. apply (wf_loggers_nodup _ _ _ _ _ _ _ W').
  - intros l. rewrite R, last_call_register. case_decide.
    + unfold route_for, level_or_default. cbn [opt_truthy fst snd].
      by rewrite Hk, Hlvl.
    + unfold logger_route, dict_at. by rewrite (wf_loggers _ _ _ _ _ _ _ W).
Qed.

Lemma svc_init :
  __init__ posix "svc" (Some "INFO") None (Some "/var/log/svc") fresh_fs []
  = inr (svc, svc_fs, svc_heap).
Proof. vm_compute. reflexivity. Defined.

Lemma calls_touch_only_config_and_loggers_witness :
  after_calls svc [AddLogger "x" None false; GetConfig] svc_heap !! 9
  = svc_heap !! 9.
Proof.
  symmetry.
  apply (calls_touch_only_config_and_loggers svc
           [AddLogger "x" None false; GetConfig] svc_heap 9);
    [reflexivity|by vm_compute|by vm_compute].
Defined.

Lemma routes_follow_last_call_witness :
  let h := after_calls svc
             [AddLogger "b" None false; AddLogger "a" (Some "DEBUG") true;
              GetConfig; AddLogger "b" (Some "ERROR") false] svc_heap in
  logger_names svc h = Some ["b"; "a"]
  ∧ logger_route svc h "b"
    = Some {| route_propagate := VBool false;
              route_handlers := [VStr "console"; VStr "file"];
              route_level := VStr "ERROR" |}.
Proof.
  intros h.
  pose proof (routes_follow_last_call posix _ _ _ _ _ _ _ _ _
                [AddLogger "b" None false; AddLogger "a" (Some "DEBUG") true;
                 GetConfig; AddLogger "b" (Some "ERROR") false] svc_init)
    as (Hn & _ & Hr).
  split; [exact Hn|exact (Hr "b")].
Defined.

Lemma handler_names_fixed_witness :
  handler_names svc (after_calls svc [AddLogger "x" None false] svc_heap)
  = Some ["console"; "file"].
Proof.
  exact (proj1 (handler_names_fixed posix _ _ _ _ _ _ _ _ _
                  [AddLogger "x" None false] svc_init)).
Defined.

Lemma other_routes_untouched_witness :
  logger_route svc
    (add_logger svc "y" None false
       (add_logger svc "x" (Some "DEBUG") true svc_heap).2).2 "x"
  = logger_route svc (add_logger svc "x" (Some "DEBUG") true svc_heap).2 "x".
Proof.
  assert (reachable svc (add_logger svc "x" (Some "DEBUG") true svc_heap).2)
    as Hr.
  { apply (reach_call svc svc_heap (AddLogger "x" (Some "DEBUG") true)).
    exact svc_reachable. }
  apply (proj1 (other_routes_untouched svc _ "y" None false "x" Hr)).
  discriminate.
Defined.

Lemma config_formatters_and_settings_fixed_witness :
  let '(c, h) := config svc (after_calls svc [AddLogger "x" None false] svc_heap) in
  formatter_table h c = Some formatter_templates
  ∧ config_setting h c "version" = Some (VInt 1)
  ∧ config_setting h c "disable_existing_loggers" = Some (VBool false).
Proof.
  exact (config_formatters_and_settings_fixed posix _ _ _ _ _ _ _ _ _
           [AddLogger "x" None false] svc_init).
Defined.

Lemma config_handlers_fixed_witness :
  let '(c, h) := config svc (after_calls svc [AddLogger "x" None false] svc_heap) in
  handler_table h c
  = Some [("console", console_handler);
          ("file",
           [("class", VStr "logging.handlers.TimedRotatingFileHandler");
            ("formatter", VStr "full");
            ("filename", VStr "/var/log/svc/svc.log");
            ("when", VStr "midnight")])].
Proof.
  exact (config_handlers_fixed posix _ _ _ _ _ _ _ _ _
           [AddLogger "x" None false] svc_init).
Defined.

Lemma init_file_system_witness :
  __init__ posix "svc" (Some "INFO") None (Some "/var/log/svc") readonly_fs []
  = inl "PermissionError".
Proof.
  apply (proj2 (proj2 (proj2 (init_file_system posix "svc" (Some "INFO") None
                                (Some "/var/log/svc") readonly_fs [])))
           "/var/log/svc" "PermissionError");
    [reflexivity|discriminate|by vm_compute|by vm_compute].
Defined.

Lemma default_manager_routes_witness :
  ∃ m fs' h,
    DefaultLogManager__init__ posix "svc" None None None
      (Some ["app"; "mylib"]) fresh_fs [] = inr (m, fs', h)
    ∧ logger_names m h = Some (default_loggers ++ ["mylib"])%list
    ∧ logger_route m h "mylib"
      = Some {| route_propagate := VBool false;
                route_handlers := [VStr "console"];
                route_level := VNone |}.
Proof.
  destruct (DefaultLogManager__init__ posix "svc" None None None
              (Some ["app"; "mylib"]) fresh_fs []) as [e|[[m fs'] h]] eqn:E;
    [vm_compute in E; discriminate E|].
  exists m, fs', h. split; [reflexivity|].
  destruct (default_manager_routes posix _ _ _ _ _ _ _ _ _ _ E)
    as (_ & _ & Hr).
  specialize (Hr "mylib"). split; [|exact Hr].
  vm_compute in E. injection E as <- <- <-. by vm_compute.
Defined.

End ManagerMore.
